(** * Completion engine of structurizr-completion ([src/completion.ts])

    A shallow embedding of the completion core: scope resolution,
    symbol aggregation, the prefix filter, the two candidate translators
    and the two entry points, followed by the properties established
    about them.

    Conventions of the embedding.
    - A JavaScript string is the list of its UTF-16 code units.
    - A value that may be [undefined] is an [option].
    - A parse-tree node, and a symbol of the symbol table, is modelled with
      its chain of parents, which is all the code ever follows.
    - Calls to the external collaborators (parser, grammar-analysis engine,
      caret mapper, symbol-table builder) are recorded in a log, and a
      [TypeError] raised by the JavaScript runtime is an explicit outcome. *)

From Stdlib Require Import ZArith NArith List String Ascii Lia.
From stdpp Require Import base list gmap.
From Equations Require Import Equations.
Import ListNotations.

#[local] Set Warnings "-register-all".

Local Open Scope Z_scope.

(* ===================================================================== *)
(** ** JavaScript strings *)
(* ===================================================================== *)

(** A string is its sequence of UTF-16 code units. *)
Abbreviation JsString := (list N).

(** The code units of an ASCII literal. *)
Definition js (s : string) : JsString :=
  List.map N_of_ascii (list_ascii_of_string s).

(** ECMAScript [WhiteSpace] and [LineTerminator] code points, the ones
    [String.prototype.trim] removes. *)
Definition isWhiteSpace (u : N) : bool :=
  ((u =? 9) || (u =? 10) || (u =? 11) || (u =? 12) || (u =? 13)
   || (u =? 32) || (u =? 160) || (u =? 5760)
   || ((8192 <=? u) && (u <=? 8202))
   || (u =? 8232) || (u =? 8233) || (u =? 8239) || (u =? 8287)
   || (u =? 12288) || (u =? 65279))%N.

Fixpoint trimStart (s : JsString) : JsString :=
  match s with
  | [] => []
  | u :: rest => if isWhiteSpace u then trimStart rest else s
  end.

Definition trimEnd (s : JsString) : JsString :=
  rev (trimStart (rev s)).

(** [s.trim()] *)
Definition trim (s : JsString) : JsString := trimEnd (trimStart s).

(** [s.startsWith(search)] *)
Fixpoint startsWith (s search : JsString) {struct search} : bool :=
  match search, s with
  | [], _ => true
  | _ :: _, [] => false
  | a :: search', b :: s' => (b =? a)%N && startsWith s' search'
  end.

(** The part of the JavaScript runtime that is not written out here: the
    Unicode lower-case mapping of [String.prototype.toLowerCase]. *)
Class JsRuntime := {
  toLowerCase : JsString -> JsString
}.

(** Lower-casing restricted to the letters A-Z; it agrees with
    [toLowerCase] on ASCII text and is used to run examples. *)
Definition asciiLowerUnit (u : N) : N :=
  if ((65 <=? u) && (u <=? 90))%N then (u + 32)%N else u.

Definition asciiRuntime : JsRuntime :=
  {| toLowerCase := List.map asciiLowerUnit |}.

(* ===================================================================== *)
(** ** Prefix filter *)
(* ===================================================================== *)

Section PrefixFilter.
Context `{JsRuntime}.

(** [filterTokens_startsWith(text, candidates)], lines 52-58. *)
Definition filterTokens_startsWith (text : JsString)
    (candidates : list JsString) : list JsString :=
  if (Z.of_nat (length (trim text)) =? 0)
  then candidates
  else List.filter
         (fun c => startsWith (toLowerCase c) (toLowerCase text))
         candidates.
End PrefixFilter.

(** The filter as the specification words it. *)
Definition allWhitespace (prefix : JsString) : Prop :=
  Forall (fun u => isWhiteSpace u = true) prefix.

Definition startsWithIgnoringCase `{JsRuntime} (prefix c : JsString) : Prop :=
  toLowerCase prefix `prefix_of` toLowerCase c.

#[global] Instance startsWithIgnoringCase_dec `{JsRuntime} prefix c :
  Decision (startsWithIgnoringCase prefix c).
Proof. unfold startsWithIgnoringCase. apply _. Defined.

Definition filter_spec `{JsRuntime} (prefix : JsString)
    (candidates : list JsString) : list JsString :=
  filter (startsWithIgnoringCase prefix) candidates.

(** The matching strategy is a module-level variable of the source,
    [filterTokens], initialised to the prefix filter and replaced by
    [setTokenMatcher]. *)
Definition TokenMatcher : Type := JsString -> list JsString -> list JsString.

Record Globals := { filterTokens : TokenMatcher }.

Definition initialGlobals `{JsRuntime} : Globals :=
  {| filterTokens := filterTokens_startsWith |}.

Definition setTokenMatcher (fn : TokenMatcher) (_ : Globals) : Globals :=
  {| filterTokens := fn |}.

(* ===================================================================== *)
(** ** Parse trees and symbols *)
(* ===================================================================== *)

(** What [instanceof] and [context.symbol.type] can observe of a node. *)
Inductive NodeClass :=
| VariableReadContext
| TerminalNode (symbol_type : Z)
| RuleContext (ruleIndex : Z).

(** A node of the parse tree: its identity, its class and its parent
    ([None] at the root). *)
Inductive ParseTree :=
| Node (node_uid : N) (node_class : NodeClass) (node_parent : option ParseTree).

Definition node_class (n : ParseTree) : NodeClass :=
  match n with Node _ c _ => c end.

Definition node_parent (n : ParseTree) : option ParseTree :=
  match n with Node _ _ p => p end.

Definition instanceof_VariableReadContext (n : ParseTree) : bool :=
  match node_class n with VariableReadContext => true | _ => false end.

(** The classes of antlr4-c3 symbols the code distinguishes. *)
Inductive SymbolClass :=
| OtherSymbol
| VariableSymbol
| ScopedSymbol
| RoutineSymbol
| SymbolTableClass.

(** [RoutineSymbol] and [SymbolTable] extend [ScopedSymbol]. *)
Definition extends (c d : SymbolClass) : bool :=
  match c, d with
  | OtherSymbol, OtherSymbol => true
  | VariableSymbol, VariableSymbol => true
  | ScopedSymbol, ScopedSymbol => true
  | RoutineSymbol, (RoutineSymbol | ScopedSymbol) => true
  | SymbolTableClass, (SymbolTableClass | ScopedSymbol) => true
  | _, _ => false
  end.

(** A symbol: identity, name, class, and the symbol that owns it. *)
Inductive Symbol :=
| mkSymbol (symbol_uid : N) (name : JsString) (symbol_class : SymbolClass)
           (symbol_parent : option Symbol).

Definition name (s : Symbol) : JsString :=
  match s with mkSymbol _ n _ _ => n end.

Definition symbol_class (s : Symbol) : SymbolClass :=
  match s with mkSymbol _ _ c _ => c end.

Definition symbol_parent (s : Symbol) : option Symbol :=
  match s with mkSymbol _ _ _ p => p end.

Definition instanceof (s : Symbol) (c : SymbolClass) : bool :=
  extends (symbol_class s) c.

(** The symbol table is the root scoped symbol. *)
Abbreviation SymbolTable := Symbol.

(** Number of owners above a symbol. *)
Fixpoint depth (s : Symbol) : nat :=
  match s with
  | mkSymbol _ _ _ None => O
  | mkSymbol _ _ _ (Some p) => S (depth p)
  end.

(** A value together with the equation that it is the value. *)
Definition remember_eq {A} (a : A) : {b : A | a = b} := exist _ a eq_refl.

(** Induction along the chain of owners. *)
Fixpoint Symbol_chain_ind (P : Symbol -> Prop)
    (step : forall u n c o,
        match o with Some p => P p | None => True end ->
        P (mkSymbol u n c o))
    (s : Symbol) : P s :=
  match s with
  | mkSymbol u n c o =>
      step u n c o
        match o return match o with Some p => P p | None => True end with
        | Some p => Symbol_chain_ind P step p
        | None => I
        end
  end.

(** The two antlr4-c3 methods the code calls.  They live outside this
    repository and are taken as they are. *)
Class SymbolTableLibrary := {
  (** [scope.getAllSymbolsSync(type, localOnly)] *)
  getAllSymbolsSync : Symbol -> SymbolClass -> bool -> list Symbol;
  (** [symbolTable.symbolWithContextSync(context)] *)
  symbolWithContextSync : SymbolTable -> ParseTree -> option Symbol
}.

(* ===================================================================== *)
(** ** Scope resolver and symbol aggregator *)
(* ===================================================================== *)

Section Scopes.
Context `{SymbolTableLibrary}.

(** [getScope] on a node that is present, lines 16-21. *)
Fixpoint getScope_from (context : ParseTree) (symbolTable : SymbolTable)
    : option Symbol :=
  match symbolWithContextSync symbolTable context with
  | Some scope => Some scope
  | None =>
      match context with
      | Node _ _ None => None
      | Node _ _ (Some p) => getScope_from p symbolTable
      end
  end.

(** [getScope(context, symbolTable)], lines 12-22: the guard
    [if (!context) return undefined] and then the walk. *)
Definition getScope (context : option ParseTree)
    (symbolTable : SymbolTable) : option Symbol :=
  match context with
  | None => None
  | Some c => getScope_from c symbolTable
  end.

(** The loop of lines 27-29 entered with a parent that is present. *)
Fixpoint skipNonScoped_from (parent : Symbol) : option Symbol :=
  if negb (instanceof parent ScopedSymbol)
  then match parent with
       | mkSymbol _ _ _ None => None
       | mkSymbol _ _ _ (Some p) => skipNonScoped_from p
       end
  else Some parent.

(** The loop of lines 27-29:
    [while (parent && !(parent instanceof ScopedSymbol))
       parent = parent.parent]. *)
Definition skipNonScoped (parent : option Symbol) : option Symbol :=
  match parent with
  | None => None
  | Some p => skipNonScoped_from p
  end.

(** [getAllSymbolsOfType(scope, type)], lines 24-34.  The array the
    library hands back is a fresh one, so pushing the outer symbols onto
    it is appending them. *)
Equations getAllSymbolsOfType (scope : Symbol) (type : SymbolClass)
    : list Symbol by wf (depth scope) lt :=
  getAllSymbolsOfType scope type
    with remember_eq (skipNonScoped (symbol_parent scope)) => {
    | exist _ (Some parent) E =>
        getAllSymbolsSync scope type true
          ++ getAllSymbolsOfType parent type
    | exist _ None E => getAllSymbolsSync scope type true }.
Next Obligation.
  clear getAllSymbolsOfType.
  assert (below : forall p q,
             skipNonScoped_from p = Some q -> (depth q <= depth p)%nat).
  { induction p as [u n c o IH] using Symbol_chain_ind; intros q; simpl.
    destruct (negb _).
    - destruct o as [p'|]; [|discriminate].
      intros Hq. specialize (IH q Hq). lia.
    - intros [= <-]. simpl. lia. }
  destruct scope as [u n c [p|]]; simpl in E; [|discriminate].
  apply below in E. simpl. lia.
Qed.
End Scopes.

(* ===================================================================== *)
(** ** Effects: collaborator calls and runtime errors *)
(* ===================================================================== *)

(** The calls the core makes to its external collaborators. *)
Inductive Call :=
| CallParser                         (* lexer, token stream, parser, top rule *)
| CallComputeTokenPosition           (* the caller's caret mapper *)
| CallCollectCandidates (index : Z)  (* [core.collectCandidates(index)] *)
| CallSymbolTableFn.                 (* [symbolTableFn()] *)

(** The only error the code itself can provoke: reading a property of
    [undefined]. *)
Inductive JsError := TypeError.

Inductive Outcome (A : Type) :=
| Ok (value : A)
| Throw (e : JsError).
Arguments Ok {A} value.
Arguments Throw {A} e.

(** A computation: the calls it has made, in order, and how it ended. *)
Definition M (A : Type) : Type := list Call * Outcome A.

Definition ret {A} (a : A) : M A := ([], Ok a).

Definition bind {A B} (m : M A) (k : A -> M B) : M B :=
  match m with
  | (log, Ok a) => let '(log', r) := k a in (log ++ log', r)
  | (log, Throw e) => (log, Throw e)
  end.

(** Calling a collaborator logs the call and yields its answer. *)
Definition call {A} (c : Call) (answer : A) : M A := ([c], Ok answer).

Definition lift {A} (o : Outcome A) : M A := ([], o).

Definition calls {A} (m : M A) : list Call := fst m.
Definition outcome {A} (m : M A) : Outcome A := snd m.

Notation "'let*' x ':=' m 'in' k" := (bind m (fun x => k))
  (at level 10, x name, m at level 100, k at level 200).

(* ===================================================================== *)
(** ** Requests and collaborators *)
(* ===================================================================== *)

Record CaretPosition := { line : Z; column : Z }.

(** [TokenPosition] of [./types]; the context may be absent. *)
Record TokenPosition := {
  index : Z;
  context : option ParseTree;
  text : JsString
}.

(** [CandidatesCollection] of antlr4-c3: viable token types with their
    follow tokens, in the order the engine inserted them, and the rules
    it matched. *)
Record CandidatesCollection := {
  tokens : list (Z * list Z);
  rules : gmap Z (list Z)
}.

(** A parser as the translators use it: its vocabulary, and the
    [CodeCompletionCore] built on it, configured with [ignoredTokens] and
    [preferredRules] and asked for the candidates at a token index. *)
Record Parser := {
  getSymbolicName : Z -> option JsString;
  collectCandidates : gset Z -> gset Z -> Z -> CandidatesCollection
}.

(** Token-type constants of the generated DSL parser. *)
Class StructurizrParser := {
  NL : Z;
  ID : Z
}.

(** Token-type and rule constants of the generated Kotlin parser that the
    code names. *)
Class KotlinParser := {
  FILE : Z;
  BinLiteral : Z; BooleanLiteral : Z; CharacterLiteral : Z;
  DoubleLiteral : Z; HexLiteral : Z; IntegerLiteral : Z; LongLiteral : Z;
  NullLiteral : Z; RealLiteral : Z;
  DelimitedComment : Z; LineComment : Z;
  QUOTE_OPEN : Z; QUOTE_CLOSE : Z; TRIPLE_QUOTE_OPEN : Z;
  LabelDefinition : Z; LabelReference : Z;
  Identifier : Z; NOT_IN : Z; NOT_IS : Z;
  RULE_variableRead : Z; RULE_suggestArgument : Z
}.

(** The front ends and the symbol-table builder, all outside the core. *)
Class Collaborators := {
  TokenStream : Type;
  (** lexing and [parser.structurizrFile()] *)
  structurizrFile : JsString -> Parser * ParseTree * TokenStream;
  (** lexing and [parser.kotlinFile()] *)
  kotlinFile : JsString -> Parser * ParseTree * TokenStream;
  (** [new SymbolTableVisitorK().visit(parseTree)] *)
  visit : ParseTree -> SymbolTable
}.

(** JavaScript truthiness of [string | undefined]. *)
Definition truthy (s : option JsString) : bool :=
  match s with
  | Some (_ :: _) => true
  | Some [] | None => false
  end.

(** [array.indexOf(x)] on numbers. *)
Fixpoint indexOf (l : list Z) (x : Z) : Z :=
  match l with
  | [] => -1
  | y :: l' =>
      if y =? x then 0
      else let i := indexOf l' x in if i <? 0 then -1 else i + 1
  end.

(** [map.forEach((value, key) => ...)] threading the arrays the callback
    mutates. *)
Definition forEach {K V S} (m : list (K * V)) (callback : S -> V -> K -> S)
    (init : S) : S :=
  fold_left (fun acc kv => callback acc (snd kv) (fst kv)) m init.

(** [array.push(x)] *)
Definition push {A} (l : list A) (x : A) : list A := l ++ [x].

(* ===================================================================== *)
(** ** Candidate translators *)
(* ===================================================================== *)

Section Translators.
Context `{JsRuntime} `{SymbolTableLibrary}.
Context `{StructurizrParser} `{KotlinParser}.

(** The loop of lines 46-48 on a node that is present. *)
Fixpoint climbToVariableRead (variable : ParseTree) : ParseTree :=
  if negb (instanceof_VariableReadContext variable)
  then match variable with
       | Node _ _ None => variable
       | Node _ _ (Some p) => climbToVariableRead p
       end
  else variable.

(** Lines 45-48.  On [undefined] the first test of the loop reads
    [variable.parent] and the runtime raises. *)
Definition findVariableRead (context : option ParseTree)
    : Outcome (option ParseTree) :=
  match context with
  | None => Throw TypeError
  | Some variable => Ok (Some (climbToVariableRead variable))
  end.

(** Lines 37-44: the variables visible at the caret. *)
Definition visibleVariables (symbolTable : SymbolTable)
    (position : TokenPosition) : list Symbol :=
  let scope := getScope (context position) symbolTable in
  match scope with
  | Some scope =>
      if instanceof scope ScopedSymbol
      then getAllSymbolsOfType scope VariableSymbol
      else getAllSymbolsSync symbolTable VariableSymbol false
  | None => getAllSymbolsSync symbolTable VariableSymbol false
  end.

(** [suggestVariables(symbolTable, position)], lines 36-50. *)
Definition suggestVariables (g : Globals) (symbolTable : SymbolTable)
    (position : TokenPosition) : Outcome (list JsString) :=
  let symbols := visibleVariables symbolTable position in
  match findVariableRead (context position) with
  | Throw e => Throw e
  | Ok variable =>
      Ok (filterTokens g
            (match variable with Some _ => text position | None => [] end)
            (List.map name symbols))
  end.

(** Lines 93-96 and 138-141. *)
Definition isIgnoredToken (ignored : list Z) (position : TokenPosition)
    : bool :=
  match context position with
  | Some (Node _ (TerminalNode symbol_type) _) =>
      0 <=? indexOf ignored symbol_type
  | _ => false
  end.

Definition textToMatch (ignored : list Z) (position : TokenPosition)
    : JsString :=
  if isIgnoredToken ignored position then [] else text position.

(** The ignore list of the DSL translator, lines 68-69. *)
Definition ignoredTokens_S : list Z := push [] NL.

(** The callback of lines 79-92. *)
Definition renderToken_S (parser : Parser) (tokens : list JsString)
    (_ : list Z) (k : Z) : list JsString :=
  if k =? ID then tokens
  else
    let symbolicName := getSymbolicName parser k in
    if truthy symbolicName
    then push tokens (toLowerCase (default [] symbolicName))
    else tokens.

(** The array [tokens] after the loop of lines 77-92. *)
Definition tokenSuggestions_S (parser : Parser)
    (candidates : CandidatesCollection) : list JsString :=
  forEach (tokens candidates) (renderToken_S parser) [].

(** Lines 67-75: the engine built on the parser, told the ignored
    tokens, asked at the caret's token index. *)
Definition candidatesAt_S (parser : Parser) (position : TokenPosition)
    : CandidatesCollection :=
  collectCandidates parser (list_to_set ignoredTokens_S) ∅
    (index position).

(** [getSuggestionsForParseTree], lines 65-99. *)
Definition getSuggestionsForParseTree (g : Globals) (parser : Parser)
    (parseTree : ParseTree) (symbolTableFn : unit -> SymbolTable)
    (position : TokenPosition) : M (list JsString) :=
  let ignored := ignoredTokens_S in
  let* candidates :=
    call (CallCollectCandidates (index position))
         (candidatesAt_S parser position) in
  let completions : list JsString := [] in
  let tokens := tokenSuggestions_S parser candidates in
  let textToMatch := textToMatch ignored position in
  ret (completions ++ filterTokens g textToMatch tokens).

(** The ignore list of the Kotlin translator, lines 106-113. *)
Definition ignoredTokens_K : list Z :=
  seqZ 0 FILE
    ++ [BinLiteral; BooleanLiteral; CharacterLiteral; DoubleLiteral;
        HexLiteral; IntegerLiteral; LongLiteral; NullLiteral;
        RealLiteral; DelimitedComment; LineComment]
    ++ [QUOTE_OPEN; QUOTE_CLOSE; TRIPLE_QUOTE_OPEN]
    ++ [LabelDefinition; LabelReference].

(** The callback of lines 124-137. *)
Definition renderToken_K (parser : Parser) (tokens : list JsString)
    (_ : list Z) (k : Z) : list JsString :=
  if k =? Identifier then tokens
  else if k =? NOT_IN then push tokens (js "!in")
  else if k =? NOT_IS then push tokens (js "!is")
  else
    let symbolicName := getSymbolicName parser k in
    if truthy symbolicName
    then push tokens (toLowerCase (default [] symbolicName))
    else tokens.

(** The array [tokens] after the loop of lines 123-137. *)
Definition tokenSuggestions_K (parser : Parser)
    (candidates : CandidatesCollection) : list JsString :=
  forEach (tokens candidates) (renderToken_K parser) [].

(** [rules.has(k)] *)
Definition has (rules : gmap Z (list Z)) (k : Z) : bool :=
  bool_decide (is_Some (rules !! k)).

(** Lines 103-116: the engine with the ignored tokens and the two
    preferred rules. *)
Definition candidatesAt_K (parser : Parser) (position : TokenPosition)
    : CandidatesCollection :=
  collectCandidates parser (list_to_set ignoredTokens_K)
    {[ RULE_variableRead; RULE_suggestArgument ]}
    (index position).

(** The test of lines 119-120. *)
Definition triggersIdentifierPath (candidates : CandidatesCollection)
    : bool :=
  has (rules candidates) RULE_variableRead
  || has (rules candidates) RULE_suggestArgument.

(** [getSuggestionsForParseTreeK], lines 101-144. *)
Definition getSuggestionsForParseTreeK (g : Globals) (parser : Parser)
    (parseTree : ParseTree) (symbolTableFn : unit -> SymbolTable)
    (position : TokenPosition) : M (list JsString) :=
  let ignored := ignoredTokens_K in
  let* candidates :=
    call (CallCollectCandidates (index position))
         (candidatesAt_K parser position) in
  let* completions :=
    (if triggersIdentifierPath candidates
     then
       let* symbolTable := call CallSymbolTableFn (symbolTableFn tt) in
       let* variables :=
         lift (suggestVariables g symbolTable position) in
       ret ([] ++ variables)
     else ret []) in
  let tokens := tokenSuggestions_K parser candidates in
  let textToMatch := textToMatch ignored position in
  ret (completions ++ filterTokens g textToMatch tokens).
End Translators.

(* ===================================================================== *)
(** ** Entry points *)
(* ===================================================================== *)

Section EntryPoints.
Context `{JsRuntime} `{SymbolTableLibrary}.
Context `{StructurizrParser} `{KotlinParser} `{Collaborators}.

Definition ComputeTokenPositionFunction : Type :=
  ParseTree -> TokenStream -> CaretPosition -> option TokenPosition.

(** [getSuggestions], lines 146-161. *)
Definition getSuggestions (g : Globals) (code : JsString)
    (caretPosition : CaretPosition)
    (computeTokenPosition : ComputeTokenPositionFunction)
    : M (list JsString) :=
  let* parsed := call CallParser (structurizrFile code) in
  let '(parser, parseTree, tokenStream) := parsed in
  let* position :=
    call CallComputeTokenPosition
         (computeTokenPosition parseTree tokenStream caretPosition) in
  match position with
  | None => ret []
  | Some position =>
      getSuggestionsForParseTree g parser parseTree
        (fun _ => visit parseTree) position
  end.

(** [getSuggestionsK], lines 163-178. *)
Definition getSuggestionsK (g : Globals) (code : JsString)
    (caretPosition : CaretPosition)
    (computeTokenPosition : ComputeTokenPositionFunction)
    : M (list JsString) :=
  let* parsed := call CallParser (kotlinFile code) in
  let '(parser, parseTree, tokenStream) := parsed in
  let* position :=
    call CallComputeTokenPosition
         (computeTokenPosition parseTree tokenStream caretPosition) in
  match position with
  | None => ret []
  | Some position =>
      getSuggestionsForParseTreeK g parser parseTree
        (fun _ => visit parseTree) position
  end.
End EntryPoints.

(* ===================================================================== *)
(** ** Vocabulary of the specification *)
(* ===================================================================== *)

(** The symbols of a kind that a scope reports when asked for its own
    symbols only. *)
Definition declaredIn `{SymbolTableLibrary} (kind : SymbolClass)
    (scope s : Symbol) : Prop :=
  s ∈ getAllSymbolsSync scope kind true.

(** A symbol of the table is declared in a scope when the scope is its
    owner; [symbols] lists the symbols of the table. *)
Definition ownedBy (symbols : list Symbol) (kind : SymbolClass)
    (scope s : Symbol) : Prop :=
  s ∈ symbols /\ symbol_parent s = Some scope /\ instanceof s kind = true.

(** What the code relies on antlr4-c3 for: asked for its own symbols of a
    kind, a scope reports the symbols of that kind it owns, and no
    other. *)
Definition reportsOwnSymbols `{SymbolTableLibrary} (symbols : list Symbol)
    (kind : SymbolClass) (scope : Symbol) : Prop :=
  forall s,
    s ∈ getAllSymbolsSync scope kind true <-> ownedBy symbols kind scope s.

(** [near] stands before [far] in a list. *)
Definition occursBefore (near far : Symbol) (l : list Symbol) : Prop :=
  exists l1 l2 l3, l = l1 ++ near :: l2 ++ far :: l3.

(** [scope] is nested in [outer]: [outer] is the nearest scope-owning
    symbol above it. *)
Definition nestedIn (scope outer : Symbol) : Prop :=
  skipNonScoped (symbol_parent scope) = Some outer.

(** A scope with no scope-owning symbol above it. *)
Definition isGlobalScope (scope : Symbol) : Prop :=
  skipNonScoped (symbol_parent scope) = None.

(** What one viable token type contributes to the DSL suggestions. *)
Definition rendering_S `{JsRuntime} `{StructurizrParser} (parser : Parser)
    (k : Z) : list JsString :=
  if decide (k = ID) then []
  else match getSymbolicName parser k with
       | Some (u :: n) => [toLowerCase (u :: n)]
       | _ => []
       end.

(** What one viable token type contributes to the Kotlin suggestions. *)
Definition rendering_K `{JsRuntime} `{KotlinParser} (parser : Parser)
    (k : Z) : list JsString :=
  if decide (k = Identifier) then []
  else if decide (k = NOT_IN) then [js "!in"]
  else if decide (k = NOT_IS) then [js "!is"]
  else match getSymbolicName parser k with
       | Some (u :: n) => [toLowerCase (u :: n)]
       | _ => []
       end.

(** A candidate passes the default filter for a prefix. *)
Definition passes `{JsRuntime} (prefix c : JsString) : Prop :=
  allWhitespace prefix \/ startsWithIgnoringCase prefix c.

(** Number of occurrences of a string in a list. *)
Definition occurrences (x : JsString) (l : list JsString) : nat :=
  length (filter (fun y => y = x) l).

(** The node is a terminal whose token type is in the ignore list. *)
Definition ignoredTerminal (ignored : list Z) (n : ParseTree) : Prop :=
  exists symbol_type,
    node_class n = TerminalNode symbol_type /\ symbol_type ∈ ignored.

(* ===================================================================== *)
(** ** A small request, used to run the definitions *)
(* ===================================================================== *)

Module Sample.

(** A global table [C] holding variable [g] and routine [B]; [B] holds
    variable [b] and a plain symbol [W]; [W] owns the two sibling blocks
    [A] (variable [a]) and [A'] (variable [s]). *)
Definition C : Symbol := mkSymbol 0 (js "") SymbolTableClass None.
Definition g : Symbol := mkSymbol 1 (js "g") VariableSymbol (Some C).
Definition B : Symbol := mkSymbol 2 (js "f") RoutineSymbol (Some C).
Definition b : Symbol := mkSymbol 3 (js "b") VariableSymbol (Some B).
Definition W : Symbol := mkSymbol 4 (js "w") OtherSymbol (Some B).
Definition A : Symbol := mkSymbol 5 (js "") ScopedSymbol (Some W).
Definition a : Symbol := mkSymbol 6 (js "a") VariableSymbol (Some A).
Definition A' : Symbol := mkSymbol 7 (js "") ScopedSymbol (Some W).
Definition s : Symbol := mkSymbol 8 (js "s") VariableSymbol (Some A').

Definition universe : list Symbol := [g; B; b; W; A; a; A'; s].

Definition symbol_uid (x : Symbol) : N :=
  match x with mkSymbol u _ _ _ => u end.

Definition node_uid (n : ParseTree) : N :=
  match n with Node u _ _ => u end.

(** The symbols of a class that a scope owns directly. *)
Definition owned (scope : Symbol) (type : SymbolClass) : list Symbol :=
  List.filter
    (fun x =>
       match symbol_parent x with
       | Some p => (symbol_uid p =? symbol_uid scope)%N
       | None => false
       end && instanceof x type)
    universe.

(** Parse tree: file > function body > block > expression > terminal,
    with the routine attached to the body and [A] to the block. *)
Definition fileNode : ParseTree := Node 0 (RuleContext 0) None.
Definition bodyNode : ParseTree := Node 1 (RuleContext 1) (Some fileNode).
Definition blockNode : ParseTree := Node 2 (RuleContext 2) (Some bodyNode).
Definition readNode : ParseTree := Node 3 VariableReadContext (Some blockNode).
Definition leafNode : ParseTree := Node 4 (TerminalNode 70) (Some readNode).
Definition newlineNode : ParseTree := Node 5 (TerminalNode 5) (Some blockNode).

Definition library : SymbolTableLibrary := {|
  getAllSymbolsSync scope type localOnly :=
    owned scope type
      ++ (if localOnly then []
          else match symbol_parent scope with
               | Some p => owned p type
               | None => []
               end);
  symbolWithContextSync _ context :=
    if (node_uid context =? 1)%N then Some B
    else if (node_uid context =? 2)%N then Some A
    else None
|}.

Definition structurizr : StructurizrParser := {| NL := 5; ID := 9 |}.

Definition kotlin : KotlinParser := {|
  FILE := 59;
  BinLiteral := 140; BooleanLiteral := 141; CharacterLiteral := 142;
  DoubleLiteral := 143; HexLiteral := 144; IntegerLiteral := 145;
  LongLiteral := 146; NullLiteral := 147; RealLiteral := 148;
  DelimitedComment := 2; LineComment := 3;
  QUOTE_OPEN := 149; QUOTE_CLOSE := 150; TRIPLE_QUOTE_OPEN := 151;
  LabelDefinition := 152; LabelReference := 153;
  Identifier := 154; NOT_IN := 100; NOT_IS := 99;
  RULE_variableRead := 120; RULE_suggestArgument := 121
|}.

(** A vocabulary with three named token types, and an engine that
    reports fixed candidates. *)
Definition symbolicNames (k : Z) : option JsString :=
  if k =? 60 then Some (js "VAL")
  else if k =? 61 then Some (js "VAR")
  else if k =? 100 then Some (js "NOT_IN")
  else if k =? 154 then Some (js "Identifier")
  else if k =? 9 then Some (js "ID")
  else None.

Definition parserWith (candidates : CandidatesCollection) : Parser := {|
  getSymbolicName := symbolicNames;
  collectCandidates _ _ _ := candidates
|}.

(** Candidates where an identifier may follow. *)
Definition identifierCandidates : CandidatesCollection := {|
  tokens := [(154, []); (60, []); (100, []); (99, []); (200, [])];
  rules := {[ 120 := [] ]}
|}.

(** Candidates of the DSL grammar. *)
Definition keywordCandidates : CandidatesCollection := {|
  tokens := [(9, []); (60, []); (61, []); (200, [])];
  rules := ∅
|}.

Definition collaborators : Collaborators := {|
  TokenStream := unit;
  structurizrFile _ := (parserWith keywordCandidates, fileNode, tt);
  kotlinFile _ := (parserWith identifierCandidates, fileNode, tt);
  visit _ := C
|}.

(** The caret inside block [A], on a node with no variable read above
    it, after the letter [a] was typed. *)
Definition inBlock : TokenPosition :=
  {| index := 3; context := Some blockNode; text := js "a" |}.

(** The caret on the terminal below a variable read. *)
Definition onRead : TokenPosition :=
  {| index := 3; context := Some leafNode; text := js "a" |}.

(** The caret on a newline token, with [a] captured as typed text. *)
Definition onNewline : TokenPosition :=
  {| index := 3; context := Some newlineNode; text := js "a" |}.

(** A position whose context node is absent. *)
Definition noContext : TokenPosition :=
  {| index := 3; context := None; text := js "g" |}.

End Sample.

(* ===================================================================== *)
(** ** Chains of nodes and of scopes *)
(* ===================================================================== *)

(** A node followed by its ancestors, nearest first, root last. *)
Fixpoint ancestorsOrSelf (n : ParseTree) : list ParseTree :=
  match n with
  | Node _ _ None => [n]
  | Node _ _ (Some p) => n :: ancestorsOrSelf p
  end.

(** Induction along the chain of parents of a node. *)
Fixpoint ParseTree_chain_ind (P : ParseTree -> Prop)
    (step : forall u c o,
        match o with Some p => P p | None => True end ->
        P (Node u c o))
    (n : ParseTree) : P n :=
  match n with
  | Node u c o =>
      step u c o
        match o return match o with Some p => P p | None => True end with
        | Some p => ParseTree_chain_ind P step p
        | None => I
        end
  end.

(** The symbols above a symbol, nearest first. *)
Fixpoint owners (s : Symbol) : list Symbol :=
  match s with
  | mkSymbol _ _ _ None => []
  | mkSymbol _ _ _ (Some p) => p :: owners p
  end.

(** [outer] is [scope] itself or one of the scopes around it, found by
    going from each scope to the nearest scope-owning symbol above. *)
Inductive enclosedBy : Symbol -> Symbol -> Prop :=
| enclosedBy_self scope : enclosedBy scope scope
| enclosedBy_outer scope outer outermost :
    nestedIn scope outer -> enclosedBy outer outermost ->
    enclosedBy scope outermost.

(** A symbol if it owns a scope, nothing otherwise. *)
Definition scopedOrNothing (w : Symbol) : option Symbol :=
  if instanceof w ScopedSymbol then Some w else None.

(** The position's context is a terminal of an ignored token type. *)
Definition onIgnoredTerminal (ignored : list Z) (position : TokenPosition)
    : Prop :=
  exists n, context position = Some n /\ ignoredTerminal ignored n.

(** A second symbol table over the sample symbols, in which the variable
    [a] itself is attached to the variable-read node. *)
Module SampleAttached.

Definition library : SymbolTableLibrary := {|
  getAllSymbolsSync := @getAllSymbolsSync Sample.library;
  symbolWithContextSync _ context :=
    if (Sample.node_uid context =? 3)%N then Some Sample.a
    else @symbolWithContextSync Sample.library Sample.C context
|}.

End SampleAttached.

(** The caret inside block [A] of the sample with only a space typed. *)
Module SampleBlank.

Definition position : TokenPosition :=
  {| index := 3; context := Some Sample.blockNode; text := js " " |}.

End SampleBlank.

(* ===================================================================== *)
(** * Properties *)
(* ===================================================================== *)

(** ** Strings *)

Lemma trimStart_head s u rest :
  trimStart s = u :: rest -> isWhiteSpace u = false.
Proof.
  induction s as [|v s IH]; simpl; [discriminate|].
  destruct (isWhiteSpace v) eqn:Hv; [exact IH|].
  intros [= <- _]. exact Hv.
Qed.

Lemma trimStart_nil s : trimStart s = [] <-> allWhitespace s.
Proof.
  unfold allWhitespace. induction s as [|v s IH]; simpl.
  - split; [constructor|reflexivity].
  - destruct (isWhiteSpace v) eqn:Hv.
    + rewrite IH. split; [by constructor|].
      by inversion 1.
    + split; [discriminate|]. inversion 1; congruence.
Qed.

Lemma allWhitespace_rev s : allWhitespace (rev s) <-> allWhitespace s.
Proof.
  unfold allWhitespace. rewrite !List.Forall_forall.
  split; intros Hs u Hu; apply Hs.
  - by apply in_rev in Hu.
  - by apply in_rev.
Qed.

(** [text.trim().length == 0] holds exactly of the texts made of white
    space only. *)
Lemma trim_empty s :
  (Z.of_nat (length (trim s)) =? 0) = true <-> allWhitespace s.
Proof.
  rewrite Z.eqb_eq. unfold trim, trimEnd. rewrite length_rev.
  split.
  - intros Hlen.
    assert (Hnil : trimStart (rev (trimStart s)) = [])
      by (destruct (trimStart (rev _)); [done|simpl in Hlen; lia]).
    apply trimStart_nil in Hnil.
    apply (proj1 (allWhitespace_rev _)) in Hnil.
    apply trimStart_nil.
    destruct (trimStart s) as [|u rest] eqn:Hs; [done|].
    apply trimStart_head in Hs.
    inversion Hnil; congruence.
  - intros Hs. apply trimStart_nil in Hs. by rewrite Hs.
Qed.

Lemma startsWith_prefix s search :
  startsWith s search = true <-> search `prefix_of` s.
Proof.
  revert s. induction search as [|a search IH]; intros s; simpl.
  - split; [intros _; apply prefix_nil|reflexivity].
  - destruct s as [|b s].
    + split; [discriminate|]. intros Hp. by apply prefix_nil_not in Hp.
    + rewrite andb_true_iff, N.eqb_eq, IH. split.
      * intros [-> Hp]. by apply prefix_cons.
      * intros Hp. split.
        -- symmetry. by eapply prefix_cons_inv_1.
        -- by eapply prefix_cons_inv_2.
Qed.

(** ** Prefix filter *)

Section PrefixFilterFacts.
Context `{JsRuntime}.

Lemma filter_startsWith_spec prefix candidates :
  List.filter
    (fun c => startsWith (toLowerCase c) (toLowerCase prefix)) candidates
  = filter_spec prefix candidates.
Proof.
  unfold filter_spec.
  induction candidates as [|c l IH]; simpl; [done|].
  rewrite filter_cons, IH.
  destruct (startsWith _ _) eqn:Hs.
  - apply startsWith_prefix in Hs. by rewrite decide_True.
  - rewrite decide_False; [done|].
    intros Hp. apply startsWith_prefix in Hp. congruence.
Qed.

Lemma filterTokens_startsWith_whitespace prefix candidates :
  allWhitespace prefix ->
  filterTokens_startsWith prefix candidates = candidates.
Proof.
  intros Hw. unfold filterTokens_startsWith.
  apply trim_empty in Hw. by rewrite Hw.
Qed.

Lemma filterTokens_startsWith_typed prefix candidates :
  ~ allWhitespace prefix ->
  filterTokens_startsWith prefix candidates = filter_spec prefix candidates.
Proof.
  intros Hw. unfold filterTokens_startsWith.
  destruct (_ =? 0) eqn:Ht.
  - by apply trim_empty in Ht.
  - apply filter_startsWith_spec.
Qed.

(** C2. The default prefix filter returns the candidates unchanged when
    the prefix is empty or all white space; for any other prefix it
    returns exactly the candidates whose lower-cased text starts with
    the lower-cased prefix, which is a subsequence of the candidates in
    their original order. *)
Theorem filterTokens_startsWith_correct
    (prefix : JsString) (candidates : list JsString) :
  filterTokens_startsWith prefix candidates
  = (if decide (allWhitespace prefix) then candidates
     else filter_spec prefix candidates)
  /\ filterTokens_startsWith prefix candidates `sublist_of` candidates
  /\ (forall c,
        c ∈ filterTokens_startsWith prefix candidates <->
        c ∈ candidates
        /\ (allWhitespace prefix \/ startsWithIgnoringCase prefix c)).
Proof.
  destruct (decide (allWhitespace prefix)) as [Hw|Hw].
  - rewrite (filterTokens_startsWith_whitespace _ _ Hw).
    repeat split; try done; tauto.
  - rewrite (filterTokens_startsWith_typed _ _ Hw).
    split; [done|]. split; [apply sublist_filter|].
    intros c. unfold filter_spec. rewrite list_elem_of_filter. tauto.
Qed.
End PrefixFilterFacts.

(** The two examples of the specification, run with ASCII lower-casing. *)
Example filter_empty_prefix :
  @filterTokens_startsWith asciiRuntime (js "") [js "foo"; js "bar"]
  = [js "foo"; js "bar"].
Proof. reflexivity. Qed.

Example filter_Fo :
  @filterTokens_startsWith asciiRuntime (js "Fo")
    [js "foo"; js "Foobar"; js "bar"]
  = [js "foo"; js "Foobar"].
Proof. reflexivity. Qed.

(** ** Scopes *)

Section ScopeFacts.
Context `{SymbolTableLibrary}.

(** The defining equation of the aggregator, with the loop's result
    made explicit. *)
Lemma getAllSymbolsOfType_eq scope type :
  getAllSymbolsOfType scope type
  = getAllSymbolsSync scope type true
      ++ match skipNonScoped (symbol_parent scope) with
         | Some parent => getAllSymbolsOfType parent type
         | None => []
         end.
Proof.
  funelim (getAllSymbolsOfType scope type).
  - by rewrite E.
  - by rewrite E, app_nil_r.
Qed.

Lemma getAllSymbolsOfType_global scope type :
  isGlobalScope scope ->
  getAllSymbolsOfType scope type = getAllSymbolsSync scope type true.
Proof.
  intros Hg. rewrite getAllSymbolsOfType_eq.
  unfold isGlobalScope in Hg. by rewrite Hg, app_nil_r.
Qed.

Lemma getAllSymbolsOfType_nested scope outer type :
  nestedIn scope outer ->
  getAllSymbolsOfType scope type
  = getAllSymbolsSync scope type true ++ getAllSymbolsOfType outer type.
Proof.
  intros Hn. rewrite getAllSymbolsOfType_eq.
  unfold nestedIn in Hn. by rewrite Hn.
Qed.

(** The loop stops on a scope-owning symbol. *)
Lemma skipNonScoped_scoped parent scope :
  skipNonScoped parent = Some scope ->
  instanceof scope ScopedSymbol = true.
Proof.
  destruct parent as [p|]; simpl; [|discriminate].
  induction p as [u n c o IH] using Symbol_chain_ind; simpl.
  destruct (instanceof (mkSymbol u n c o) ScopedSymbol) eqn:Hs; simpl.
  - by intros [= <-].
  - destruct o as [p'|]; [exact IH|discriminate].
Qed.

Lemma nestedIn_depth scope outer :
  nestedIn scope outer -> (depth outer < depth scope)%nat.
Proof.
  unfold nestedIn. destruct scope as [u n c [p|]]; simpl; [|discriminate].
  revert outer.
  induction p as [u' n' c' o IH] using Symbol_chain_ind; intros outer.
  simpl. destruct (negb _).
  - destruct o as [p'|]; [|discriminate].
    intros Hq. specialize (IH outer Hq). simpl in *. lia.
  - intros [= <-]. simpl. lia.
Qed.

Lemma occursBefore_app near far (front back : list Symbol) :
  near ∈ front -> far ∈ back -> occursBefore near far (front ++ back).
Proof.
  intros (f1 & f2 & ->)%list_elem_of_split
         (b1 & b2 & ->)%list_elem_of_split.
  exists f1, (f2 ++ b1), b2. by rewrite <- !app_assoc.
Qed.

(** C5. Let scope [A] be nested in [B] and [B] in the global scope [C],
    and let each of the three report, as antlr4-c3 scopes do, the symbols
    of the kind that it owns.  Then the symbols collected from [A]
    contain every symbol of the kind declared in [A], in [B] or in [C];
    they contain no symbol declared in a sibling scope of [A] (another
    scope nested in [B]); and they are the symbols of [A], then those of
    [B], then those of [C], so that a symbol of a nearer scope stands
    before a symbol of a scope further out. *)
Theorem getAllSymbolsOfType_scope_chain
    (symbols : list Symbol) (A B C : Symbol) (kind : SymbolClass) :
  nestedIn A B -> nestedIn B C -> isGlobalScope C ->
  reportsOwnSymbols symbols kind A ->
  reportsOwnSymbols symbols kind B ->
  reportsOwnSymbols symbols kind C ->
  (forall s,
      ownedBy symbols kind A s \/ ownedBy symbols kind B s
      \/ ownedBy symbols kind C s ->
      s ∈ getAllSymbolsOfType A kind)
  /\ (forall A' s,
        nestedIn A' B -> A' <> A -> symbol_parent s = Some A' ->
        s ∉ getAllSymbolsOfType A kind)
  /\ getAllSymbolsOfType A kind
     = getAllSymbolsSync A kind true
         ++ getAllSymbolsSync B kind true
         ++ getAllSymbolsSync C kind true
  /\ (forall near far,
        (ownedBy symbols kind A near
         /\ (ownedBy symbols kind B far \/ ownedBy symbols kind C far))
        \/ (ownedBy symbols kind B near /\ ownedBy symbols kind C far) ->
        occursBefore near far (getAllSymbolsOfType A kind)).
Proof.
  intros HAB HBC HC RA RB RC.
  assert (Heq : getAllSymbolsOfType A kind
                = getAllSymbolsSync A kind true
                    ++ getAllSymbolsSync B kind true
                    ++ getAllSymbolsSync C kind true).
  { rewrite (getAllSymbolsOfType_nested A B), (getAllSymbolsOfType_nested B C),
      (getAllSymbolsOfType_global C); done. }
  rewrite Heq. split; [|split; [|split; [done|]]].
  - intros s. rewrite !elem_of_app, (RA s), (RB s), (RC s). tauto.
  - intros A' s HA'B Hneq Hs.
    rewrite !elem_of_app, (RA s), (RB s), (RC s).
    unfold ownedBy. rewrite Hs.
    intros [(_ & [= ->] & _)|[(_ & [= ->] & _)|(_ & [= ->] & _)]].
    + done.
    + apply nestedIn_depth in HA'B. lia.
    + unfold nestedIn in HA'B. unfold isGlobalScope in HC. congruence.
  - intros near far [[Hn [Hf|Hf]]|[Hn Hf]].
    + apply RA in Hn. apply RB in Hf.
      apply occursBefore_app; [done|]. apply elem_of_app. by left.
    + apply RA in Hn. apply RC in Hf.
      apply occursBefore_app; [done|]. apply elem_of_app. by right.
    + apply RB in Hn. apply RC in Hf.
      destruct (occursBefore_app near far _ _ Hn Hf) as (l1 & l2 & l3 & Hl).
      exists (getAllSymbolsSync A kind true ++ l1), l2, l3.
      by rewrite Hl, <- app_assoc.
Qed.
End ScopeFacts.

(** ** Translators *)

Lemma indexOf_found l x : 0 <= indexOf l x <-> x ∈ l.
Proof.
  induction l as [|y l IH]; simpl.
  - split; [lia|]. by intros ?%elem_of_nil.
  - rewrite elem_of_cons. destruct (y =? x) eqn:Hy.
    + apply Z.eqb_eq in Hy. split; [auto|lia].
    + apply Z.eqb_neq in Hy. destruct (indexOf l x <? 0) eqn:Hi.
      * apply Z.ltb_lt in Hi. split; [lia|].
        intros [?|Hin]; [congruence|]. apply IH in Hin. lia.
      * apply Z.ltb_ge in Hi. split; [|lia].
        intros _. right. by apply IH.
Qed.

Lemma forEach_rendering {K V A} (m : list (K * V))
    (callback : list A -> V -> K -> list A) (rendering : K -> list A) init :
  (forall acc v k, callback acc v k = acc ++ rendering k) ->
  forEach m callback init
  = init ++ flat_map (fun kv => rendering (fst kv)) m.
Proof.
  intros Hcb. unfold forEach. revert init.
  induction m as [|[k v] m IH]; intros init; simpl.
  - by rewrite app_nil_r.
  - by rewrite IH, Hcb, <- app_assoc.
Qed.

Section TranslatorFacts.
Context `{JsRuntime} `{SymbolTableLibrary}.
Context `{StructurizrParser} `{KotlinParser}.

Lemma renderToken_S_rendering parser acc v k :
  renderToken_S parser acc v k = acc ++ rendering_S parser k.
Proof.
  unfold renderToken_S, rendering_S, push.
  destruct (Z.eqb_spec k ID) as [->|Hk].
  - by rewrite decide_True, app_nil_r.
  - rewrite decide_False by done.
    destruct (getSymbolicName parser k) as [[|u n]|]; simpl;
      by rewrite ?app_nil_r.
Qed.

Lemma renderToken_K_rendering parser acc v k :
  renderToken_K parser acc v k = acc ++ rendering_K parser k.
Proof.
  unfold renderToken_K, rendering_K, push.
  destruct (Z.eqb_spec k Identifier) as [->|Hk].
  { by rewrite decide_True, app_nil_r. }
  rewrite decide_False by done.
  destruct (Z.eqb_spec k NOT_IN) as [->|Hk1].
  { by rewrite decide_True. }
  rewrite decide_False by done.
  destruct (Z.eqb_spec k NOT_IS) as [->|Hk2].
  { by rewrite decide_True. }
  rewrite decide_False by done.
  destruct (getSymbolicName parser k) as [[|u n]|]; simpl;
    by rewrite ?app_nil_r.
Qed.

(** The vocabulary suggestions are the renderings of the viable token
    types, in the order of the candidate map. *)
Lemma tokenSuggestions_S_eq parser candidates :
  tokenSuggestions_S parser candidates
  = flat_map (fun kv => rendering_S parser (fst kv)) (tokens candidates).
Proof.
  unfold tokenSuggestions_S.
  by rewrite (forEach_rendering _ _ (rendering_S parser))
    by apply renderToken_S_rendering.
Qed.

Lemma tokenSuggestions_K_eq parser candidates :
  tokenSuggestions_K parser candidates
  = flat_map (fun kv => rendering_K parser (fst kv)) (tokens candidates).
Proof.
  unfold tokenSuggestions_K.
  by rewrite (forEach_rendering _ _ (rendering_K parser))
    by apply renderToken_K_rendering.
Qed.

(** On an ignored terminal nothing is matched against. *)
Lemma textToMatch_ignored ignored position n :
  context position = Some n ->
  ignoredTerminal ignored n ->
  textToMatch ignored position = [].
Proof.
  intros Hc (t & Hn & Hin). unfold textToMatch, isIgnoredToken.
  rewrite Hc. destruct n as [u c p]. simpl in Hn. subst c.
  apply indexOf_found, Z.leb_le in Hin. by rewrite Hin.
Qed.

(** With a context the walk of [suggestVariables] ends on a node, so the
    typed text is the prefix whatever the walk met. *)
Lemma suggestVariables_present g symbolTable position n :
  context position = Some n ->
  suggestVariables g symbolTable position
  = Ok (filterTokens g (text position)
          (List.map name (visibleVariables symbolTable position))).
Proof. intros Hc. unfold suggestVariables. by rewrite Hc. Qed.

Lemma suggestVariables_absent g symbolTable position :
  context position = None ->
  suggestVariables g symbolTable position = Throw TypeError.
Proof. intros Hc. unfold suggestVariables. by rewrite Hc. Qed.

(** The DSL translator, in one equation. *)
Lemma getSuggestionsForParseTree_eq g parser parseTree symbolTableFn
    position :
  getSuggestionsForParseTree g parser parseTree symbolTableFn position
  = ([CallCollectCandidates (index position)],
     Ok (filterTokens g (textToMatch ignoredTokens_S position)
           (tokenSuggestions_S parser (candidatesAt_S parser position)))).
Proof. reflexivity. Qed.

(** The Kotlin translator when no preferred rule was matched. *)
Lemma getSuggestionsForParseTreeK_tokens_only g parser parseTree
    symbolTableFn position :
  triggersIdentifierPath (candidatesAt_K parser position) = false ->
  getSuggestionsForParseTreeK g parser parseTree symbolTableFn position
  = ([CallCollectCandidates (index position)],
     Ok (filterTokens g (textToMatch ignoredTokens_K position)
           (tokenSuggestions_K parser (candidatesAt_K parser position)))).
Proof.
  intros Hp. unfold getSuggestionsForParseTreeK. simpl.
  by rewrite Hp.
Qed.

(** The Kotlin translator on the identifier path, with a context. *)
Lemma getSuggestionsForParseTreeK_identifiers g parser parseTree
    symbolTableFn position n :
  triggersIdentifierPath (candidatesAt_K parser position) = true ->
  context position = Some n ->
  getSuggestionsForParseTreeK g parser parseTree symbolTableFn position
  = ([CallCollectCandidates (index position); CallSymbolTableFn],
     Ok (filterTokens g (text position)
           (List.map name
              (visibleVariables (symbolTableFn tt) position))
         ++ filterTokens g (textToMatch ignoredTokens_K position)
              (tokenSuggestions_K parser
                 (candidatesAt_K parser position)))).
Proof.
  intros Hp Hc. unfold getSuggestionsForParseTreeK. simpl.
  rewrite Hp. simpl.
  by rewrite (suggestVariables_present _ _ _ n Hc).
Qed.

(** The Kotlin translator on the identifier path, without a context. *)
Lemma getSuggestionsForParseTreeK_absent g parser parseTree
    symbolTableFn position :
  triggersIdentifierPath (candidatesAt_K parser position) = true ->
  context position = None ->
  getSuggestionsForParseTreeK g parser parseTree symbolTableFn position
  = ([CallCollectCandidates (index position); CallSymbolTableFn],
     Throw TypeError).
Proof.
  intros Hp Hc. unfold getSuggestionsForParseTreeK. simpl.
  rewrite Hp. simpl.
  by rewrite (suggestVariables_absent _ _ _ Hc).
Qed.

(** The default filter keeps every copy of a string it lets through. *)
Lemma occurrences_app x l1 l2 :
  occurrences x (l1 ++ l2) = (occurrences x l1 + occurrences x l2)%nat.
Proof. unfold occurrences. by rewrite filter_app, length_app. Qed.

Lemma occurrences_filter (P : JsString -> Prop)
    `{!forall c, Decision (P c)} x l :
  occurrences x (filter P l)
  = if decide (P x) then occurrences x l else O.
Proof.
  unfold occurrences. induction l as [|c l IH]; simpl.
  - by destruct (decide (P x)).
  - rewrite (filter_cons P), (filter_cons (fun y => y = x) c l).
    destruct (decide (P c)) as [Hc|Hc].
    + rewrite (filter_cons (fun y => y = x)).
      destruct (decide (c = x)) as [->|Hx]; simpl.
      * rewrite IH. by destruct (decide (P x)).
      * exact IH.
    + destruct (decide (c = x)) as [->|Hx]; [|exact IH].
      rewrite IH. by destruct (decide (P x)).
Qed.

(** The default filter selects a subsequence of the candidates. *)
Lemma filterTokens_startsWith_sublist prefix l :
  filterTokens_startsWith prefix l `sublist_of` l.
Proof.
  destruct (decide (allWhitespace prefix)) as [Hw|Hw].
  - by rewrite filterTokens_startsWith_whitespace.
  - rewrite filterTokens_startsWith_typed by done. apply sublist_filter.
Qed.

Lemma occurrences_filterTokens_startsWith x prefix l :
  occurrences x (filterTokens_startsWith prefix l)
  = if decide (passes prefix x) then occurrences x l else O.
Proof.
  unfold passes.
  destruct (decide (allWhitespace prefix)) as [Hw|Hw].
  - rewrite filterTokens_startsWith_whitespace by done.
    by rewrite decide_True by auto.
  - rewrite filterTokens_startsWith_typed by done.
    unfold filter_spec. rewrite occurrences_filter.
    destruct (decide (startsWithIgnoringCase prefix x)).
    + by rewrite decide_True by auto.
    + by rewrite decide_False by tauto.
Qed.
End TranslatorFacts.

(** ** The translators and the entry points *)

Section Claims.
Context `{JsRuntime} `{SymbolTableLibrary}.
Context `{StructurizrParser} `{KotlinParser} `{Collaborators}.

(** C3. When the candidate set triggers the identifier path, the list
    the Kotlin translator returns is the filtered identifier suggestions
    followed by the filtered vocabulary suggestions, and such a list is
    returned whenever the position carries a context node.  No copy of a
    string is removed within or across the two parts: with the default
    filter a string occurs in the result as often as it occurs among the
    identifiers, if it passes their prefix, plus as often as it occurs
    among the vocabulary suggestions, if it passes theirs. *)
Theorem getSuggestionsForParseTreeK_concatenates
    (g : Globals) (parser : Parser) (parseTree : ParseTree)
    (symbolTableFn : unit -> SymbolTable) (position : TokenPosition) :
  triggersIdentifierPath (candidatesAt_K parser position) = true ->
  let identifiers :=
    List.map name (visibleVariables (symbolTableFn tt) position) in
  let vocabulary :=
    tokenSuggestions_K parser (candidatesAt_K parser position) in
  let typed := textToMatch ignoredTokens_K position in
  (forall result,
      outcome (getSuggestionsForParseTreeK g parser parseTree
                 symbolTableFn position) = Ok result ->
      result
      = filterTokens g (text position) identifiers
          ++ filterTokens g typed vocabulary)
  /\ (forall n,
        context position = Some n ->
        outcome (getSuggestionsForParseTreeK g parser parseTree
                   symbolTableFn position)
        = Ok (filterTokens g (text position) identifiers
              ++ filterTokens g typed vocabulary))
  /\ (forall result,
        outcome (getSuggestionsForParseTreeK initialGlobals parser
                   parseTree symbolTableFn position) = Ok result ->
        forall x,
          occurrences x result
          = ((if decide (passes (text position) x)
              then occurrences x identifiers else O)
             + (if decide (passes typed x)
                then occurrences x vocabulary else O))%nat).
Proof.
  intros Hp identifiers vocabulary typed.
  destruct (context position) as [n|] eqn:Hc.
  - rewrite !(getSuggestionsForParseTreeK_identifiers _ _ _ _ _ n Hp Hc).
    simpl. split; [by intros result [= <-]|]. split; [done|].
    intros result [= <-] x.
    by rewrite occurrences_app, !occurrences_filterTokens_startsWith.
  - rewrite !(getSuggestionsForParseTreeK_absent _ _ _ _ _ Hp Hc).
    simpl. split; [done|]. split; done.
Qed.

(** C4. If the caller's mapper returns nothing for the parsed text and
    the caret, each entry point returns the empty list after calling
    only the parser and the mapper: the grammar-analysis engine of the
    translator is not run and the symbol table is not built. *)
Theorem getSuggestions_unmapped_caret
    (g : Globals) (code : JsString) (caretPosition : CaretPosition)
    (computeTokenPosition : ComputeTokenPositionFunction) :
  (computeTokenPosition (structurizrFile code).1.2
     (structurizrFile code).2 caretPosition = None ->
   let run := getSuggestions g code caretPosition computeTokenPosition in
   run = ([CallParser; CallComputeTokenPosition], Ok [])
   /\ (CallSymbolTableFn ∉ calls run)
   /\ (forall i, CallCollectCandidates i ∉ calls run))
  /\ (computeTokenPosition (kotlinFile code).1.2
        (kotlinFile code).2 caretPosition = None ->
      let run := getSuggestionsK g code caretPosition computeTokenPosition in
      run = ([CallParser; CallComputeTokenPosition], Ok [])
      /\ (CallSymbolTableFn ∉ calls run)
      /\ (forall i, CallCollectCandidates i ∉ calls run)).
Proof.
  split; intros Hnone run; subst run.
  - unfold getSuggestions. simpl.
    destruct (structurizrFile code) as [[parser parseTree] tokenStream].
    simpl in *. rewrite Hnone. simpl.
    split; [done|]. split; [|intros i];
      rewrite !elem_of_cons, elem_of_nil; intros [?|[?|?]]; done.
  - unfold getSuggestionsK. simpl.
    destruct (kotlinFile code) as [[parser parseTree] tokenStream].
    simpl in *. rewrite Hnone. simpl.
    split; [done|]. split; [|intros i];
      rewrite !elem_of_cons, elem_of_nil; intros [?|[?|?]]; done.
Qed.

Lemma ignoredTokens_S_newline : NL ∈ ignoredTokens_S.
Proof. unfold ignoredTokens_S, push. simpl. by apply elem_of_cons; left. Qed.

Lemma ignoredTokens_K_below_FILE t :
  0 <= t < FILE -> t ∈ ignoredTokens_K.
Proof.
  intros Ht. unfold ignoredTokens_K. apply elem_of_app. left.
  apply elem_of_seqZ. lia.
Qed.

(** C6. In both translators, when the context node is a terminal whose
    token type is in the translator's ignore list, the vocabulary
    suggestions are matched against the empty string whatever text the
    position carries, and under the default filter all of them are
    kept.  The newline token is in the DSL ignore list, and every token
    type below [FILE] is in the Kotlin one. *)
Theorem ignored_terminal_matches_empty_text
    (g : Globals) (parser : Parser) (parseTree : ParseTree)
    (symbolTableFn : unit -> SymbolTable) (position : TokenPosition)
    (n : ParseTree) :
  context position = Some n ->
  (ignoredTerminal ignoredTokens_S n ->
   outcome (getSuggestionsForParseTree g parser parseTree symbolTableFn
              position)
   = Ok (filterTokens g []
           (tokenSuggestions_S parser (candidatesAt_S parser position))))
  /\ (ignoredTerminal ignoredTokens_K n ->
      outcome (getSuggestionsForParseTreeK g parser parseTree
                 symbolTableFn position)
      = Ok ((if triggersIdentifierPath (candidatesAt_K parser position)
             then filterTokens g (text position)
                    (List.map name
                       (visibleVariables (symbolTableFn tt) position))
             else [])
            ++ filterTokens g []
                 (tokenSuggestions_K parser
                    (candidatesAt_K parser position))))
  /\ (forall candidates, filterTokens initialGlobals [] candidates = candidates)
  /\ NL ∈ ignoredTokens_S
  /\ (forall t, 0 <= t < FILE -> t ∈ ignoredTokens_K).
Proof.
  intros Hc. split; [|split; [|split; [|split]]].
  - intros Hn. rewrite getSuggestionsForParseTree_eq. simpl.
    by rewrite (textToMatch_ignored _ _ n Hc Hn).
  - intros Hn.
    destruct (triggersIdentifierPath (candidatesAt_K parser position))
      eqn:Hp.
    + rewrite (getSuggestionsForParseTreeK_identifiers _ _ _ _ _ n Hp Hc).
      simpl. by rewrite (textToMatch_ignored _ _ n Hc Hn).
    + rewrite (getSuggestionsForParseTreeK_tokens_only _ _ _ _ _ Hp).
      simpl. by rewrite (textToMatch_ignored _ _ n Hc Hn).
  - reflexivity.
  - apply ignoredTokens_S_newline.
  - apply ignoredTokens_K_below_FILE.
Qed.

(** C7. The DSL translator calls the grammar-analysis engine and nothing
    else (the symbol table is never asked for), and returns the active
    filter applied to the vocabulary suggestions.  These are the
    renderings of the viable token types in order: nothing for the
    identifier token type, the lower-cased symbolic name for any other
    token type that has one, nothing for a token type without one.
    Under the default filter every returned string is therefore the
    lower-cased symbolic name of a viable token type other than the
    identifier. *)
Theorem getSuggestionsForParseTree_vocabulary_only
    (g : Globals) (parser : Parser) (parseTree : ParseTree)
    (symbolTableFn : unit -> SymbolTable) (position : TokenPosition) :
  let candidates := candidatesAt_S parser position in
  let suggestions := tokenSuggestions_S parser candidates in
  getSuggestionsForParseTree g parser parseTree symbolTableFn position
  = ([CallCollectCandidates (index position)],
     Ok (filterTokens g (textToMatch ignoredTokens_S position)
           suggestions))
  /\ suggestions
     = flat_map (fun kv => rendering_S parser (fst kv)) (tokens candidates)
  /\ rendering_S parser ID = []
  /\ (forall k name,
        k <> ID -> getSymbolicName parser k = Some name -> name <> [] ->
        rendering_S parser k = [toLowerCase name])
  /\ (forall k,
        k <> ID -> getSymbolicName parser k = None ->
        rendering_S parser k = [])
  /\ (forall result,
        outcome (getSuggestionsForParseTree initialGlobals parser
                   parseTree symbolTableFn position) = Ok result ->
        forall x, x ∈ result ->
          exists k v name,
            (k, v) ∈ tokens candidates /\ k <> ID
            /\ getSymbolicName parser k = Some name
            /\ x = toLowerCase name).
Proof.
  intros candidates suggestions.
  split; [apply getSuggestionsForParseTree_eq|].
  split; [apply tokenSuggestions_S_eq|].
  split; [unfold rendering_S; by rewrite decide_True|].
  split; [|split].
  - intros k [|u name] Hk Hname Hne; [done|].
    unfold rendering_S. by rewrite decide_False, Hname.
  - intros k Hk Hname.
    unfold rendering_S. by rewrite decide_False, Hname.
  - intros result. rewrite getSuggestionsForParseTree_eq. simpl.
    intros [= <-] x Hx.
    apply (fun Hin => elem_of_sublist _ _ _ Hin
                        (filterTokens_startsWith_sublist _ _)) in Hx.
    rewrite tokenSuggestions_S_eq in Hx.
    apply list_elem_of_In, in_flat_map in Hx as ([k v] & Hkv & Hx).
    simpl in Hx. unfold rendering_S in Hx.
    destruct (decide (k = ID)) as [|Hk]; [by destruct Hx|].
    destruct (getSymbolicName parser k) as [[|u name]|] eqn:Hname;
      try by destruct Hx.
    destruct Hx as [<-|[]].
    exists k, v, (u :: name). by rewrite <- list_elem_of_In in Hkv.
Qed.

(** C8. The vocabulary suggestions of the Kotlin translator are the
    renderings of the viable token types in order, and the rendering of
    each negated-operator token type is the literal ["!in"],
    respectively ["!is"], for every parser: its vocabulary is not
    consulted for them.  So wherever one of the two is viable, the
    literal stands at its place among the suggestions, and what the
    translator returns ends with the active filter applied to them. *)
Theorem negated_operators_rendered_literally (parser : Parser) :
  NOT_IN <> Identifier -> NOT_IS <> Identifier -> NOT_IS <> NOT_IN ->
  (forall candidates,
      tokenSuggestions_K parser candidates
      = flat_map (fun kv => rendering_K parser (fst kv))
          (tokens candidates))
  /\ rendering_K parser NOT_IN = [js "!in"]
  /\ rendering_K parser NOT_IS = [js "!is"]
  /\ (forall before after follow rules,
        tokenSuggestions_K parser
          {| tokens := before ++ (NOT_IN, follow) :: after;
             rules := rules |}
        = tokenSuggestions_K parser {| tokens := before; rules := rules |}
            ++ [js "!in"]
            ++ tokenSuggestions_K parser
                 {| tokens := after; rules := rules |})
  /\ (forall before after follow rules,
        tokenSuggestions_K parser
          {| tokens := before ++ (NOT_IS, follow) :: after;
             rules := rules |}
        = tokenSuggestions_K parser {| tokens := before; rules := rules |}
            ++ [js "!is"]
            ++ tokenSuggestions_K parser
                 {| tokens := after; rules := rules |})
  /\ (forall g parseTree symbolTableFn position result,
        outcome (getSuggestionsForParseTreeK g parser parseTree
                   symbolTableFn position) = Ok result ->
        exists identifiers,
          result
          = identifiers
              ++ filterTokens g (textToMatch ignoredTokens_K position)
                   (tokenSuggestions_K parser
                      (candidatesAt_K parser position))).
Proof.
  intros Hin His Hneq.
  assert (Rin : rendering_K parser NOT_IN = [js "!in"]).
  { unfold rendering_K.
    by rewrite (decide_False (P := NOT_IN = Identifier)), decide_True. }
  assert (Ris : rendering_K parser NOT_IS = [js "!is"]).
  { unfold rendering_K.
    by rewrite (decide_False (P := NOT_IS = Identifier)),
      (decide_False (P := NOT_IS = NOT_IN)), decide_True. }
  split; [apply tokenSuggestions_K_eq|].
  split; [exact Rin|]. split; [exact Ris|].
  split; [|split].
  - intros. rewrite !tokenSuggestions_K_eq. simpl.
    by rewrite flat_map_app; simpl; rewrite Rin.
  - intros. rewrite !tokenSuggestions_K_eq. simpl.
    by rewrite flat_map_app; simpl; rewrite Ris.
  - intros g parseTree symbolTableFn position result.
    destruct (triggersIdentifierPath (candidatesAt_K parser position))
      eqn:Hp.
    + destruct (context position) as [n|] eqn:Hc.
      * rewrite (getSuggestionsForParseTreeK_identifiers _ _ _ _ _ n Hp Hc).
        simpl. intros [= <-]. by eexists.
      * by rewrite (getSuggestionsForParseTreeK_absent _ _ _ _ _ Hp Hc).
    + rewrite (getSuggestionsForParseTreeK_tokens_only _ _ _ _ _ Hp).
      simpl. intros [= <-]. by exists [].
Qed.

(** C10. On the identifier path of the Kotlin translator, when the
    context node is a terminal whose token type is ignored, the
    identifier suggestions are still filtered with the text typed at the
    position; only the vocabulary suggestions are matched against the
    empty string. *)
Theorem identifiers_keep_typed_text_on_ignored_terminal
    (g : Globals) (parser : Parser) (parseTree : ParseTree)
    (symbolTableFn : unit -> SymbolTable) (position : TokenPosition)
    (n : ParseTree) :
  triggersIdentifierPath (candidatesAt_K parser position) = true ->
  context position = Some n ->
  ignoredTerminal ignoredTokens_K n ->
  outcome (getSuggestionsForParseTreeK g parser parseTree symbolTableFn
             position)
  = Ok (filterTokens g (text position)
          (List.map name (visibleVariables (symbolTableFn tt) position))
        ++ filterTokens g []
             (tokenSuggestions_K parser (candidatesAt_K parser position))).
Proof.
  intros Hp Hc Hn.
  rewrite (getSuggestionsForParseTreeK_identifiers _ _ _ _ _ n Hp Hc).
  simpl. by rewrite (textToMatch_ignored _ _ n Hc Hn).
Qed.
End Claims.

(* ===================================================================== *)
(** * The sample request, run *)
(* ===================================================================== *)

Section SampleRuns.
Import Sample.
#[local] Existing Instance asciiRuntime.
#[local] Existing Instance library.
#[local] Existing Instance structurizr.
#[local] Existing Instance kotlin.
#[local] Existing Instance collaborators.

(** C1. The claim asks for the empty prefix when the upward walk ends at
    the root without meeting a variable read.  On such a position the
    code filters with the typed text all the same: of the visible
    variables [a], [b], [g] it returns [a] alone, where the empty prefix
    would return the three.  The walk stops on the root, which is a
    node, so the test [variable ? position.text : ''] always takes its
    first branch. *)
Theorem suggestVariables_root_reached_keeps_typed_text :
  climbToVariableRead blockNode = fileNode
  /\ node_parent fileNode = None
  /\ instanceof_VariableReadContext fileNode = false
  /\ List.map name (visibleVariables C inBlock)
     = [js "a"; js "b"; js "g"]
  /\ suggestVariables initialGlobals C inBlock = Ok [js "a"]
  /\ filterTokens initialGlobals []
       (List.map name (visibleVariables C inBlock))
     = [js "a"; js "b"; js "g"].
Proof. repeat split; reflexivity. Qed.

(** C9. The claim asks that no input makes the core raise.  With a
    position whose context node is absent and candidates that match the
    variable-read rule, the Kotlin translator, and the Kotlin entry point
    through it, end in a [TypeError]: the loop of [suggestVariables]
    reads [variable.parent] of [undefined].  [getScope] guards against
    the absent node; the loop does not. *)
Theorem getSuggestionsK_absent_context_throws :
  getScope (context noContext) C = None
  /\ suggestVariables initialGlobals C noContext = Throw TypeError
  /\ getSuggestionsForParseTreeK initialGlobals
       (parserWith identifierCandidates) fileNode (fun _ => C) noContext
     = ([CallCollectCandidates 3; CallSymbolTableFn], Throw TypeError)
  /\ getSuggestionsK initialGlobals
       (js "val y = ") {| line := 1; column := 8 |}
       (fun _ _ _ => Some noContext)
     = ([CallParser; CallComputeTokenPosition; CallCollectCandidates 3;
         CallSymbolTableFn],
        Throw TypeError).
Proof. repeat split; reflexivity. Qed.

Lemma sample_reportsOwnSymbols scope :
  scope = A \/ scope = B \/ scope = C ->
  reportsOwnSymbols universe VariableSymbol scope.
Proof.
  intros Hscope s. unfold ownedBy, universe. split.
  - intros Hs.
    assert (Hcase : (scope = A /\ s = a) \/ (scope = B /\ s = b)
                    \/ (scope = C /\ s = g)).
    { destruct Hscope as [-> | [-> | ->] ]; simpl in Hs;
        apply list_elem_of_singleton in Hs; auto. }
    destruct Hcase as [ [Hs' Hx] | [ [Hs' Hx] | [Hs' Hx] ] ]; subst scope s;
      (split; [repeat constructor|split; reflexivity]).
  - rewrite !elem_of_cons, elem_of_nil.
    intros (Hin & Hparent & Hkind).
    destruct Hin
      as [Hx|[Hx|[Hx|[Hx|[Hx|[Hx|[Hx|[Hx|Hx] ] ] ] ] ] ] ];
      try (by destruct Hx); subst s;
      try discriminate Hkind;
      destruct Hscope as [-> | [-> | ->] ]; try discriminate Hparent;
      simpl; by apply list_elem_of_singleton.
Defined.

Lemma getAllSymbolsOfType_scope_chain_witness :
  nestedIn A B /\ nestedIn B C /\ isGlobalScope C
  /\ reportsOwnSymbols universe VariableSymbol A
  /\ reportsOwnSymbols universe VariableSymbol B
  /\ reportsOwnSymbols universe VariableSymbol C
  /\ nestedIn A' B /\ A' <> A /\ symbol_parent s = Some A'
  /\ getAllSymbolsOfType A VariableSymbol = [a; b; g]
  /\ s ∉ getAllSymbolsOfType A VariableSymbol.
Proof.
  assert (RA := sample_reportsOwnSymbols A (or_introl eq_refl)).
  assert (RB := sample_reportsOwnSymbols B (or_intror (or_introl eq_refl))).
  assert (RC := sample_reportsOwnSymbols C (or_intror (or_intror eq_refl))).
  assert (Hneq : A' <> A) by discriminate.
  destruct (getAllSymbolsOfType_scope_chain universe A B C VariableSymbol
              eq_refl eq_refl eq_refl RA RB RC)
    as (_ & Hout & Heq & _).
  do 3 (split; [reflexivity|]).
  split; [exact RA|]. split; [exact RB|]. split; [exact RC|].
  split; [reflexivity|]. split; [exact Hneq|]. split; [reflexivity|].
  split; [exact Heq|].
  exact (Hout A' s eq_refl Hneq eq_refl).
Defined.

Lemma getSuggestionsForParseTreeK_concatenates_witness :
  triggersIdentifierPath
    (candidatesAt_K (parserWith identifierCandidates) onRead) = true
  /\ context onRead = Some leafNode
  /\ outcome (getSuggestionsForParseTreeK initialGlobals
                (parserWith identifierCandidates) fileNode (fun _ => C)
                onRead)
     = Ok [js "a"].
Proof.
  do 2 (split; [reflexivity|]).
  exact (proj1 (proj2 (getSuggestionsForParseTreeK_concatenates
                         initialGlobals (parserWith identifierCandidates)
                         fileNode (fun _ => C) onRead eq_refl))
           leafNode eq_refl).
Defined.

Lemma getSuggestions_unmapped_caret_witness :
  (fun _ _ _ => None : option TokenPosition)
    (structurizrFile (js "workspace {")).1.2
    (structurizrFile (js "workspace {")).2 {| line := 1; column := 11 |}
  = None
  /\ (fun _ _ _ => None : option TokenPosition)
       (kotlinFile (js "val y = ")).1.2
       (kotlinFile (js "val y = ")).2 {| line := 1; column := 8 |}
     = None
  /\ getSuggestions initialGlobals (js "workspace {")
       {| line := 1; column := 11 |}
    (fun _ _ _ => None)
  = ([CallParser; CallComputeTokenPosition], Ok [])
  /\ getSuggestionsK initialGlobals (js "val y = ") {| line := 1; column := 8 |}
       (fun _ _ _ => None)
     = ([CallParser; CallComputeTokenPosition], Ok []).
Proof.
  do 2 (split; [reflexivity|]). split.
  - exact (proj1 (proj1 (getSuggestions_unmapped_caret initialGlobals
                           (js "workspace {") {| line := 1; column := 11 |}
                           (fun _ _ _ => None)) eq_refl)).
  - exact (proj1 (proj2 (getSuggestions_unmapped_caret initialGlobals
                           (js "val y = ") {| line := 1; column := 8 |}
                           (fun _ _ _ => None)) eq_refl)).
Defined.

Lemma newlineNode_ignored_S : ignoredTerminal ignoredTokens_S newlineNode.
Proof.
  exists 5. split; [reflexivity|].
  exact (@ignoredTokens_S_newline structurizr).
Defined.

Lemma newlineNode_ignored_K : ignoredTerminal ignoredTokens_K newlineNode.
Proof.
  exists 5. split; [reflexivity|].
  apply (@ignoredTokens_K_below_FILE kotlin). simpl. lia.
Defined.

Lemma ignored_terminal_matches_empty_text_witness :
  context onNewline = Some newlineNode
  /\ ignoredTerminal ignoredTokens_S newlineNode
  /\ ignoredTerminal ignoredTokens_K newlineNode
  /\ outcome (getSuggestionsForParseTree initialGlobals
                (parserWith keywordCandidates) fileNode (fun _ => C)
                onNewline)
     = Ok [js "val"; js "var"]
  /\ outcome (getSuggestionsForParseTreeK initialGlobals
                (parserWith identifierCandidates) fileNode (fun _ => C)
                onNewline)
     = Ok [js "a"; js "val"; js "!in"; js "!is"].
Proof.
  split; [reflexivity|].
  split; [exact newlineNode_ignored_S|].
  split; [exact newlineNode_ignored_K|].
  split.
  - exact (proj1 (ignored_terminal_matches_empty_text initialGlobals
                    (parserWith keywordCandidates) fileNode (fun _ => C)
                    onNewline newlineNode eq_refl)
             newlineNode_ignored_S).
  - exact (proj1 (proj2 (ignored_terminal_matches_empty_text
                           initialGlobals
                           (parserWith identifierCandidates) fileNode
                           (fun _ => C) onNewline newlineNode eq_refl))
             newlineNode_ignored_K).
Defined.

Lemma negated_operators_rendered_literally_witness :
  NOT_IN <> Identifier /\ NOT_IS <> Identifier /\ NOT_IS <> NOT_IN
  /\ rendering_K (parserWith identifierCandidates) NOT_IN = [js "!in"]
  /\ rendering_K (parserWith identifierCandidates) NOT_IS = [js "!is"]
  /\ getSymbolicName (parserWith identifierCandidates) NOT_IN
     = Some (js "NOT_IN").
Proof.
  assert (H1 : NOT_IN <> Identifier) by discriminate.
  assert (H2 : NOT_IS <> Identifier) by discriminate.
  assert (H3 : NOT_IS <> NOT_IN) by discriminate.
  do 3 (split; [assumption|]).
  destruct (negated_operators_rendered_literally
              (parserWith identifierCandidates) H1 H2 H3)
    as (_ & Rin & Ris & _).
  split; [exact Rin|]. split; [exact Ris|reflexivity].
Defined.

Lemma identifiers_keep_typed_text_on_ignored_terminal_witness :
  triggersIdentifierPath
    (candidatesAt_K (parserWith identifierCandidates) onNewline) = true
  /\ context onNewline = Some newlineNode
  /\ ignoredTerminal ignoredTokens_K newlineNode
  /\ outcome (getSuggestionsForParseTreeK initialGlobals
                (parserWith identifierCandidates) fileNode (fun _ => C)
                onNewline)
     = Ok ([js "a"] ++ [js "val"; js "!in"; js "!is"]).
Proof.
  do 2 (split; [reflexivity|]).
  split; [exact newlineNode_ignored_K|].
  exact (identifiers_keep_typed_text_on_ignored_terminal initialGlobals
           (parserWith identifierCandidates) fileNode (fun _ => C)
           onNewline newlineNode eq_refl eq_refl newlineNode_ignored_K).
Defined.
End SampleRuns.

(* ===================================================================== *)
(** * Further properties of the code *)
(* ===================================================================== *)

(** ** First match along a chain *)

Lemma head_omap_Some {A B} (f : A -> option B) (l : list A) (y : B) :
  head (omap f l) = Some y <->
  exists before m after,
    l = before ++ m :: after /\ f m = Some y
    /\ forall b, b ∈ before -> f b = None.
Proof.
  induction l as [|a l IH]; simpl.
  - split; [discriminate|].
    intros (before & m & after & Hl & _). by destruct before.
  - destruct (f a) as [y'|] eqn:Ha; simpl.
    + split.
      * intros [= ->]. exists [], a, l. split; [done|]. split; [done|].
        intros b Hb. by apply elem_of_nil in Hb.
      * intros ([|b before] & m & after & Hl & Hm & Hbefore);
          simpl in Hl; injection Hl as Hhead Htail.
        -- congruence.
        -- specialize (Hbefore a). rewrite Ha in Hbefore.
           discriminate Hbefore. apply elem_of_cons. by left.
    + rewrite IH. split.
      * intros (before & m & after & -> & Hm & Hbefore).
        exists (a :: before), m, after. split; [done|]. split; [done|].
        intros b [->|Hb]%elem_of_cons; auto.
      * intros ([|b before] & m & after & Hl & Hm & Hbefore);
          simpl in Hl; injection Hl as Hhead Htail.
        -- congruence.
        -- exists before, m, after. split; [done|]. split; [done|].
           intros b' Hb'. apply Hbefore, elem_of_cons. by right.
Qed.

Lemma head_omap_None {A B} (f : A -> option B) (l : list A) :
  head (omap f l) = None <-> forall m, m ∈ l -> f m = None.
Proof.
  induction l as [|a l IH]; simpl.
  - split; [|done]. intros _ m Hm. by apply elem_of_nil in Hm.
  - destruct (f a) as [y'|] eqn:Ha; simpl.
    + split; [discriminate|]. intros Hall.
      specialize (Hall a). rewrite Ha in Hall.
      discriminate Hall. apply elem_of_cons. by left.
    + rewrite IH. split.
      * intros Hall m [->|Hm]%elem_of_cons; auto.
      * intros Hall m Hm. apply Hall, elem_of_cons. by right.
Qed.

(** ** Scope resolver *)

Section ScopeResolverFacts.
Context `{SymbolTableLibrary}.

Lemma getScope_from_head (symbolTable : SymbolTable) (n : ParseTree) :
  getScope_from n symbolTable
  = head (omap (symbolWithContextSync symbolTable) (ancestorsOrSelf n)).
Proof.
  induction n as [u c o IH] using ParseTree_chain_ind.
  destruct o as [p|]; simpl;
    destruct (symbolWithContextSync symbolTable _); simpl; done.
Qed.

(** X1. [getScope] returns the symbol attached to the nearest node, going
    from the context node up to the root, that has one attached: the
    result is [s] exactly when some node of the chain carries [s] and no
    node below it on the chain carries anything. *)
Theorem getScope_nearest_attached
    (symbolTable : SymbolTable) (n : ParseTree) (s : Symbol) :
  getScope (Some n) symbolTable = Some s <->
  exists below m above,
    ancestorsOrSelf n = below ++ m :: above
    /\ symbolWithContextSync symbolTable m = Some s
    /\ forall b, b ∈ below -> symbolWithContextSync symbolTable b = None.
Proof. simpl. rewrite getScope_from_head. apply head_omap_Some. Qed.

(** X2. [getScope] finds nothing exactly when the context node is absent
    or no node from the context node up to the root has a symbol
    attached. *)
Theorem getScope_nothing_attached
    (symbolTable : SymbolTable) (context : option ParseTree) :
  getScope context symbolTable = None <->
  match context with
  | None => True
  | Some n =>
      forall m, m ∈ ancestorsOrSelf n ->
                symbolWithContextSync symbolTable m = None
  end.
Proof.
  destruct context as [n|]; simpl; [|done].
  rewrite getScope_from_head. apply head_omap_None.
Qed.
End ScopeResolverFacts.

(** ** Symbol aggregator *)

Section AggregatorFacts.
Context `{SymbolTableLibrary}.

Lemma skipNonScoped_head (s : Symbol) :
  skipNonScoped (symbol_parent s) = head (omap scopedOrNothing (owners s)).
Proof.
  destruct s as [u n c [p|]]; simpl; [|done].
  induction p as [u' n' c' o IH] using Symbol_chain_ind.
  unfold scopedOrNothing at 1. simpl.
  destruct (instanceof (mkSymbol u' n' c' o) ScopedSymbol); simpl; [done|].
  destruct o as [p'|]; [exact IH|done].
Qed.

(** X3. The loop that climbs from a scope stops on the nearest
    scope-owning symbol above it: [outer] is what it returns exactly when
    [outer] is among the symbols above the scope, is an instance of
    [ScopedSymbol], and every symbol between the two is not. *)
Theorem nestedIn_nearest_scoped_owner (scope outer : Symbol) :
  nestedIn scope outer <->
  exists skipped above,
    owners scope = skipped ++ outer :: above
    /\ instanceof outer ScopedSymbol = true
    /\ forall w, w ∈ skipped -> instanceof w ScopedSymbol = false.
Proof.
  unfold nestedIn. rewrite skipNonScoped_head, head_omap_Some.
  unfold scopedOrNothing. split.
  - intros (skipped & m & above & Ho & Hm & Hskipped).
    destruct (instanceof m ScopedSymbol) eqn:Hs; [|discriminate].
    injection Hm as ->. exists skipped, above.
    split; [done|]. split; [done|]. intros w Hw.
    specialize (Hskipped w Hw). by destruct (instanceof w ScopedSymbol).
  - intros (skipped & above & Ho & Hs & Hskipped).
    exists skipped, outer, above. split; [done|]. rewrite Hs.
    split; [done|]. intros w Hw. by rewrite (Hskipped w Hw).
Qed.

(** X4. Whatever the nesting depth, the aggregator collects exactly the
    symbols of the kind that the starting scope or one of the scopes
    around it reports as its own; a symbol owned only by a symbol that
    is skipped on the way up is not collected. *)
Theorem getAllSymbolsOfType_collects_enclosing
    (scope : Symbol) (kind : SymbolClass) (s : Symbol) :
  s ∈ getAllSymbolsOfType scope kind <->
  exists outer, enclosedBy scope outer /\ declaredIn kind outer s.
Proof.
  split.
  - funelim (getAllSymbolsOfType scope kind); intros Hs.
    + apply elem_of_app in Hs as [Hs|Hs].
      * exists scope. split; [constructor|exact Hs].
      * match goal with
        | IH : forall x, x ∈ getAllSymbolsOfType parent _ -> _ |- _ =>
            destruct (IH _ Hs) as (outer & Henc & Hdecl)
        end.
        exists outer. split; [|exact Hdecl].
        by apply (enclosedBy_outer scope parent outer).
    + exists scope. split; [constructor|exact Hs].
  - intros (outer & Henc & Hdecl).
    induction Henc as [scope|scope outer outermost Hn _ IH].
    + rewrite getAllSymbolsOfType_eq. apply elem_of_app. by left.
    + rewrite (getAllSymbolsOfType_nested _ _ _ Hn).
      apply elem_of_app. right. by apply IH.
Qed.

(** X5. What is collected from an enclosing scope is the tail end of what
    is collected from any scope inside it: the symbols of the inner
    scopes are put in front of it, and the starting scope's own symbols
    come first of all. *)
Theorem getAllSymbolsOfType_suffix_of_inner
    (scope outer : Symbol) (kind : SymbolClass) :
  enclosedBy scope outer ->
  getAllSymbolsOfType outer kind `suffix_of` getAllSymbolsOfType scope kind
  /\ getAllSymbolsSync scope kind true
       `prefix_of` getAllSymbolsOfType scope kind.
Proof.
  intros Henc. split.
  - induction Henc as [scope|scope outer outermost Hn _ IH]; [done|].
    rewrite (getAllSymbolsOfType_nested _ _ _ Hn).
    by apply suffix_app_r.
  - rewrite getAllSymbolsOfType_eq. by apply prefix_app_r.
Qed.
End AggregatorFacts.

(** ** Prefix filter, continued *)

Section PrefixFilterLaws.
Context `{JsRuntime}.

Lemma filter_spec_idempotent prefix l :
  filter_spec prefix (filter_spec prefix l) = filter_spec prefix l.
Proof.
  unfold filter_spec. induction l as [|c l IH]; [done|].
  rewrite (filter_cons _ c l).
  destruct (decide (startsWithIgnoringCase prefix c)) as [Hc|Hc].
  - by rewrite filter_cons_True, IH.
  - exact IH.
Qed.

(** X6. Filtering twice with the same prefix changes nothing more: the
    default filter is idempotent. *)
Theorem filterTokens_startsWith_idempotent
    (prefix : JsString) (candidates : list JsString) :
  filterTokens_startsWith prefix
    (filterTokens_startsWith prefix candidates)
  = filterTokens_startsWith prefix candidates.
Proof.
  destruct (decide (allWhitespace prefix)) as [Hw|Hw].
  - by rewrite !filterTokens_startsWith_whitespace.
  - rewrite !filterTokens_startsWith_typed by done.
    apply filter_spec_idempotent.
Qed.

(** X7. The default filter works candidate by candidate: filtering two
    lists put end to end gives the two filtered lists put end to end. *)
Theorem filterTokens_startsWith_app
    (prefix : JsString) (l1 l2 : list JsString) :
  filterTokens_startsWith prefix (l1 ++ l2)
  = filterTokens_startsWith prefix l1 ++ filterTokens_startsWith prefix l2.
Proof.
  destruct (decide (allWhitespace prefix)) as [Hw|Hw].
  - by rewrite !filterTokens_startsWith_whitespace.
  - rewrite !filterTokens_startsWith_typed by done.
    apply filter_app.
Qed.

(** X8. Typing on only narrows the list: if the lower-cased shorter text
    is a prefix of the lower-cased longer text, and the longer text is not
    all white space, filtering with the longer text gives the same list
    whether one starts from all candidates or from those the shorter text
    had kept; so every candidate kept for the longer text was kept for
    the shorter. *)
Theorem filterTokens_startsWith_narrows
    (shorter longer : JsString) (candidates : list JsString) :
  toLowerCase shorter `prefix_of` toLowerCase longer ->
  ~ allWhitespace longer ->
  filterTokens_startsWith longer
    (filterTokens_startsWith shorter candidates)
  = filterTokens_startsWith longer candidates
  /\ filterTokens_startsWith longer candidates
       `sublist_of` filterTokens_startsWith shorter candidates.
Proof.
  intros Hpre Hlong.
  assert (Heq : filterTokens_startsWith longer
                  (filterTokens_startsWith shorter candidates)
                = filterTokens_startsWith longer candidates).
  { destruct (decide (allWhitespace shorter)) as [Hw|Hw].
    { by rewrite (filterTokens_startsWith_whitespace shorter). }
    rewrite (filterTokens_startsWith_typed shorter) by done.
    rewrite !(filterTokens_startsWith_typed longer) by done.
    unfold filter_spec.
    induction candidates as [|c l IH]; [done|].
    rewrite (filter_cons (startsWithIgnoringCase shorter) c l),
      (filter_cons (startsWithIgnoringCase longer) c l).
    destruct (decide (startsWithIgnoringCase longer c)) as [Hc|Hc].
    - rewrite decide_True
        by (unfold startsWithIgnoringCase in *; by etrans).
      by rewrite filter_cons_True, IH.
    - destruct (decide (startsWithIgnoringCase shorter c)); [|exact IH].
      by rewrite filter_cons_False, IH. }
  split; [exact Heq|]. rewrite <- Heq.
  destruct (decide (allWhitespace longer)); [done|].
  rewrite (filterTokens_startsWith_typed longer) by done.
  apply sublist_filter.
Qed.

(** X9. The typed text is matched as it stands, white space included:
    [trim] only decides whether there is a text to match.  Once the text
    has a character that is not white space, the lower-cased form of a
    kept candidate is at least as long as the lower-cased text; so for a
    text and a candidate that lower-casing leaves at their length, as it
    does all ASCII text, a candidate shorter than the typed text is never
    kept. *)
Theorem filterTokens_startsWith_matches_untrimmed
    (prefix : JsString) (candidates : list JsString) (c : JsString) :
  ~ allWhitespace prefix ->
  c ∈ filterTokens_startsWith prefix candidates ->
  (length (toLowerCase prefix) <= length (toLowerCase c))%nat
  /\ (length (toLowerCase prefix) = length prefix ->
      length (toLowerCase c) = length c ->
      (length prefix <= length c)%nat).
Proof.
  intros Hw Hc.
  rewrite filterTokens_startsWith_typed in Hc by done.
  apply list_elem_of_filter in Hc as [Hc _].
  apply prefix_length in Hc. split; [exact Hc|].
  intros Hp Hc'. by rewrite Hp, Hc' in Hc.
Qed.
End PrefixFilterLaws.

(** ** Translators and entry points, continued *)

Section TranslatorLaws.
Context `{JsRuntime} `{SymbolTableLibrary}.
Context `{StructurizrParser} `{KotlinParser} `{Collaborators}.

(** The calls of the Kotlin translator. *)
Lemma getSuggestionsForParseTreeK_calls g parser parseTree symbolTableFn
    position :
  calls (getSuggestionsForParseTreeK g parser parseTree symbolTableFn
           position)
  = CallCollectCandidates (index position)
      :: (if triggersIdentifierPath (candidatesAt_K parser position)
          then [CallSymbolTableFn] else []).
Proof.
  destruct (triggersIdentifierPath (candidatesAt_K parser position)) eqn:Hp.
  - destruct (context position) as [n|] eqn:Hc.
    + by rewrite (getSuggestionsForParseTreeK_identifiers _ _ _ _ _ n Hp Hc).
    + by rewrite (getSuggestionsForParseTreeK_absent _ _ _ _ _ Hp Hc).
  - by rewrite (getSuggestionsForParseTreeK_tokens_only _ _ _ _ _ Hp).
Qed.

(** The Kotlin translator raises only on the identifier path without a
    context node. *)
Lemma getSuggestionsForParseTreeK_raises g parser parseTree symbolTableFn
    position :
  (exists e,
      outcome (getSuggestionsForParseTreeK g parser parseTree symbolTableFn
                 position) = Throw e) <->
  context position = None
  /\ triggersIdentifierPath (candidatesAt_K parser position) = true.
Proof.
  destruct (triggersIdentifierPath (candidatesAt_K parser position)) eqn:Hp.
  - destruct (context position) as [n|] eqn:Hc.
    + rewrite (getSuggestionsForParseTreeK_identifiers _ _ _ _ _ n Hp Hc).
      simpl. split; [by intros [e He]|by intros [? _]].
    + rewrite (getSuggestionsForParseTreeK_absent _ _ _ _ _ Hp Hc).
      simpl. split; [done|]. intros _. by exists TypeError.
  - rewrite (getSuggestionsForParseTreeK_tokens_only _ _ _ _ _ Hp).
    simpl. split; [by intros [e He]|by intros [_ ?]].
Qed.

(** The Kotlin entry point is the parser and the mapper followed by the
    translator. *)
Lemma getSuggestionsK_unfold g code caretPosition
    (computeTokenPosition : ComputeTokenPositionFunction) :
  getSuggestionsK g code caretPosition computeTokenPosition
  = match computeTokenPosition (kotlinFile code).1.2 (kotlinFile code).2
            caretPosition with
    | None => ([CallParser; CallComputeTokenPosition], Ok [])
    | Some position =>
        let run :=
          getSuggestionsForParseTreeK g (kotlinFile code).1.1
            (kotlinFile code).1.2 (fun _ => visit (kotlinFile code).1.2)
            position in
        ([CallParser; CallComputeTokenPosition] ++ calls run, outcome run)
    end.
Proof.
  unfold getSuggestionsK. simpl.
  destruct (kotlinFile code) as [[parser parseTree] tokenStream]. simpl.
  destruct (computeTokenPosition parseTree tokenStream caretPosition)
    as [position|]; [|done].
  by destruct (getSuggestionsForParseTreeK _ _ _ _ _).
Qed.

(** X10. The DSL entry point never builds the symbol table, whatever the
    mapper returns: its calls are the parser, the mapper and, when the
    caret was mapped, the grammar-analysis engine at the mapped token
    index, and no other. *)
Theorem getSuggestions_calls
    (g : Globals) (code : JsString) (caretPosition : CaretPosition)
    (computeTokenPosition : ComputeTokenPositionFunction) :
  let run := getSuggestions g code caretPosition computeTokenPosition in
  calls run
  = [CallParser; CallComputeTokenPosition]
      ++ match computeTokenPosition (structurizrFile code).1.2
                 (structurizrFile code).2 caretPosition with
         | None => []
         | Some position => [CallCollectCandidates (index position)]
         end
  /\ (CallSymbolTableFn ∉ calls run).
Proof.
  intros run. subst run.
  unfold getSuggestions. simpl.
  destruct (structurizrFile code) as [[parser parseTree] tokenStream].
  simpl.
  destruct (computeTokenPosition parseTree tokenStream caretPosition)
    as [position|]; simpl.
  - split; [done|].
    rewrite !elem_of_cons, elem_of_nil. by intros [?|[?|[?|?]]].
  - split; [done|].
    rewrite !elem_of_cons, elem_of_nil. by intros [?|[?|?]].
Qed.

(** X11. Whatever the filter and whatever the typed text, the Kotlin
    entry point raises a [TypeError] when the mapper returns a position
    without a context node and the candidates at that position match the
    variable-read or the suggest-argument rule; it has by then called the
    parser, the mapper, the grammar-analysis engine and the symbol-table
    builder. *)
Theorem getSuggestionsK_raises_without_context
    (g : Globals) (code : JsString) (caretPosition : CaretPosition)
    (computeTokenPosition : ComputeTokenPositionFunction)
    (position : TokenPosition) :
  computeTokenPosition (kotlinFile code).1.2 (kotlinFile code).2
    caretPosition = Some position ->
  context position = None ->
  triggersIdentifierPath (candidatesAt_K (kotlinFile code).1.1 position)
  = true ->
  getSuggestionsK g code caretPosition computeTokenPosition
  = ([CallParser; CallComputeTokenPosition;
      CallCollectCandidates (index position); CallSymbolTableFn],
     Throw TypeError).
Proof.
  intros Hpos Hc Hp. rewrite getSuggestionsK_unfold, Hpos. cbv zeta.
  by rewrite (getSuggestionsForParseTreeK_absent _ _ _ _ _ Hp Hc).
Qed.

(** X21. With the default filter, and a position as [TokenPosition]
    declares it (its typed text a string), the Kotlin entry point returns
    a list in every other situation: when the mapped position has a
    context node, or when no preferred rule was matched.  The list is the
    filtered variable names, if a preferred rule was matched, followed by
    the filtered vocabulary suggestions. *)
Theorem getSuggestionsK_returns_otherwise
    (code : JsString) (caretPosition : CaretPosition)
    (computeTokenPosition : ComputeTokenPositionFunction)
    (position : TokenPosition) :
  let parser := (kotlinFile code).1.1 in
  let parseTree := (kotlinFile code).1.2 in
  computeTokenPosition parseTree (kotlinFile code).2 caretPosition
  = Some position ->
  context position <> None
  \/ triggersIdentifierPath (candidatesAt_K parser position) = false ->
  outcome (getSuggestionsK initialGlobals code caretPosition
             computeTokenPosition)
  = Ok ((if triggersIdentifierPath (candidatesAt_K parser position)
         then filterTokens_startsWith (text position)
                (List.map name
                   (visibleVariables (visit parseTree) position))
         else [])
        ++ filterTokens_startsWith (textToMatch ignoredTokens_K position)
             (tokenSuggestions_K parser (candidatesAt_K parser position))).
Proof.
  intros parser parseTree Hpos Hor. subst parser parseTree.
  rewrite getSuggestionsK_unfold, Hpos. cbv zeta. unfold outcome at 1.
  cbn [snd].
  destruct (triggersIdentifierPath
              (candidatesAt_K (kotlinFile code).1.1 position)) eqn:Hp.
  - destruct (context position) as [n|] eqn:Hc.
    + by rewrite (getSuggestionsForParseTreeK_identifiers _ _ _ _ _ n Hp Hc).
    + by destruct Hor.
  - by rewrite (getSuggestionsForParseTreeK_tokens_only _ _ _ _ _ Hp).
Qed.

(** X12. The Kotlin entry point builds the symbol table lazily and at
    most once: after the parser and the mapper it calls the
    grammar-analysis engine if the caret was mapped, and then the
    symbol-table builder only if a preferred rule was matched. *)
Theorem getSuggestionsK_calls
    (g : Globals) (code : JsString) (caretPosition : CaretPosition)
    (computeTokenPosition : ComputeTokenPositionFunction) :
  calls (getSuggestionsK g code caretPosition computeTokenPosition)
  = [CallParser; CallComputeTokenPosition]
      ++ match computeTokenPosition (kotlinFile code).1.2
                 (kotlinFile code).2 caretPosition with
         | None => []
         | Some position =>
             CallCollectCandidates (index position)
               :: (if triggersIdentifierPath
                        (candidatesAt_K (kotlinFile code).1.1 position)
                   then [CallSymbolTableFn] else [])
         end.
Proof.
  rewrite getSuggestionsK_unfold.
  destruct (computeTokenPosition _ _ caretPosition) as [position|];
    [|done].
  cbv zeta. unfold calls at 1. cbn [fst].
  by rewrite getSuggestionsForParseTreeK_calls.
Qed.
End TranslatorLaws.

Section SuggestionLaws.
Context `{JsRuntime} `{SymbolTableLibrary}.
Context `{StructurizrParser} `{KotlinParser}.

Lemma rendering_S_short parser k : (length (rendering_S parser k) <= 1)%nat.
Proof.
  unfold rendering_S. destruct (decide _); simpl; [lia|].
  destruct (getSymbolicName parser k) as [[|u rest]|]; simpl; lia.
Qed.

Lemma rendering_K_short parser k : (length (rendering_K parser k) <= 1)%nat.
Proof.
  unfold rendering_K. repeat (destruct (decide _); simpl; [lia|]).
  destruct (getSymbolicName parser k) as [[|u rest]|]; simpl; lia.
Qed.

Lemma flat_map_short {A B} (f : A -> list B) (l : list A) :
  (forall a, (length (f a) <= 1)%nat) ->
  (length (flat_map f l) <= length l)%nat.
Proof.
  intros Hf. induction l as [|a l IH]; simpl; [lia|].
  rewrite length_app. specialize (Hf a). lia.
Qed.

(** X13. Every vocabulary suggestion of the Kotlin translator comes from a
    viable token type other than the identifier: it is the literal "!in"
    for the not-in token type, the literal "!is" for the not-is token
    type, and otherwise the lower-cased, non-empty symbolic name of the
    token type. *)
Theorem tokenSuggestions_K_provenance
    (parser : Parser) (candidates : CandidatesCollection) (x : JsString) :
  x ∈ tokenSuggestions_K parser candidates ->
  exists k follow,
    (k, follow) ∈ tokens candidates /\ k <> Identifier
    /\ ((k = NOT_IN /\ x = js "!in")
        \/ (k <> NOT_IN /\ k = NOT_IS /\ x = js "!is")
        \/ (k <> NOT_IN /\ k <> NOT_IS
            /\ exists name,
                getSymbolicName parser k = Some name /\ name <> []
                /\ x = toLowerCase name)).
Proof.
  rewrite tokenSuggestions_K_eq.
  intros ([k follow] & Hkv & Hx)%list_elem_of_In%in_flat_map.
  simpl in Hx. unfold rendering_K in Hx.
  exists k, follow. split; [by apply list_elem_of_In|].
  destruct (decide (k = Identifier)) as [|Hk]; [by destruct Hx|].
  split; [done|].
  destruct (decide (k = NOT_IN)) as [|Hin].
  { destruct Hx as [<-|[]]. by left. }
  destruct (decide (k = NOT_IS)) as [|His].
  { destruct Hx as [<-|[]]. right. by left. }
  destruct (getSymbolicName parser k) as [[|u name]|] eqn:Hname;
    try by destruct Hx.
  destruct Hx as [<-|[]]. right. right.
  split; [done|]. split; [done|]. by exists (u :: name).
Qed.

(** X14. A viable token type gives at most one vocabulary suggestion, in
    both translators: there are never more suggestions than viable token
    types, and fewer when the identifier token type is viable or a token
    type has no symbolic name. *)
Theorem tokenSuggestions_bounded
    (parser : Parser) (candidates : CandidatesCollection) :
  (length (tokenSuggestions_S parser candidates)
   <= length (tokens candidates))%nat
  /\ (length (tokenSuggestions_K parser candidates)
      <= length (tokens candidates))%nat
  /\ (forall before after follow rules,
        (length (tokenSuggestions_K parser
                   {| tokens := before ++ (Identifier, follow) :: after;
                      rules := rules |})
         <= length before + length after)%nat)
  /\ (forall before after follow rules,
        (length (tokenSuggestions_S parser
                   {| tokens := before ++ (ID, follow) :: after;
                      rules := rules |})
         <= length before + length after)%nat).
Proof.
  rewrite tokenSuggestions_S_eq, tokenSuggestions_K_eq.
  split; [apply flat_map_short; intros; apply rendering_S_short|].
  split; [apply flat_map_short; intros; apply rendering_K_short|].
  split; intros before after follow rules.
  - rewrite tokenSuggestions_K_eq. simpl.
    rewrite flat_map_app, length_app. simpl.
    unfold rendering_K at 2. rewrite decide_True by done. simpl.
    pose proof (flat_map_short (fun kv => rendering_K parser kv.1) before
                  (fun kv => rendering_K_short parser kv.1)).
    pose proof (flat_map_short (fun kv => rendering_K parser kv.1) after
                  (fun kv => rendering_K_short parser kv.1)).
    lia.
  - rewrite tokenSuggestions_S_eq. simpl.
    rewrite flat_map_app, length_app. simpl.
    unfold rendering_S at 2. rewrite decide_True by done. simpl.
    pose proof (flat_map_short (fun kv => rendering_S parser kv.1) before
                  (fun kv => rendering_S_short parser kv.1)).
    pose proof (flat_map_short (fun kv => rendering_S parser kv.1) after
                  (fun kv => rendering_S_short parser kv.1)).
    lia.
Qed.

(** X15. The test for an ignored caret token holds exactly when the
    context node is present, is a terminal, and its token type is in the
    ignore list; in every other case (absent context, rule node, terminal
    of another type) the text matched against the vocabulary suggestions
    is the typed text. *)
Theorem isIgnoredToken_exact
    (ignored : list Z) (position : TokenPosition) :
  (isIgnoredToken ignored position = true
   <-> onIgnoredTerminal ignored position)
  /\ (~ onIgnoredTerminal ignored position ->
      textToMatch ignored position = text position).
Proof.
  assert (Hiff : isIgnoredToken ignored position = true
                 <-> onIgnoredTerminal ignored position).
  { unfold isIgnoredToken, onIgnoredTerminal, ignoredTerminal.
    destruct (context position) as [[u c p]|].
    - destruct c as [|t|r]; simpl.
      + split; [discriminate|]. by intros (n & [= <-] & t & Hc & _).
      + rewrite Z.leb_le, indexOf_found. split.
        * intros Hin. eexists. split; [done|]. by exists t.
        * by intros (n & [= <-] & t' & [= <-] & Hin).
      + split; [discriminate|]. by intros (n & [= <-] & t & Hc & _).
    - split; [discriminate|]. by intros (n & Hn & _). }
  split; [exact Hiff|]. intros Hnot. unfold textToMatch.
  destruct (isIgnoredToken ignored position); [|done].
  exfalso. by apply Hnot, Hiff.
Qed.
End SuggestionLaws.

Section ResultLaws.
Context `{JsRuntime} `{SymbolTableLibrary}.
Context `{StructurizrParser} `{KotlinParser}.

Lemma textToMatch_whitespace ignored position :
  allWhitespace (text position) ->
  allWhitespace (textToMatch ignored position).
Proof.
  intros Hw. unfold textToMatch.
  destruct (isIgnoredToken ignored position); [constructor|exact Hw].
Qed.

(** X16. With the default filter the Kotlin translator only selects: the
    list it returns is a subsequence of the visible variable names
    followed by the vocabulary suggestions, in that order; nothing is
    added and nothing is moved. *)
Theorem getSuggestionsForParseTreeK_selects
    (parser : Parser) (parseTree : ParseTree)
    (symbolTableFn : unit -> SymbolTable) (position : TokenPosition)
    (result : list JsString) :
  outcome (getSuggestionsForParseTreeK initialGlobals parser parseTree
             symbolTableFn position) = Ok result ->
  result
    `sublist_of`
    List.map name (visibleVariables (symbolTableFn tt) position)
      ++ tokenSuggestions_K parser (candidatesAt_K parser position).
Proof.
  destruct (triggersIdentifierPath (candidatesAt_K parser position)) eqn:Hp.
  - destruct (context position) as [n|] eqn:Hc.
    + rewrite (getSuggestionsForParseTreeK_identifiers _ _ _ _ _ n Hp Hc).
      simpl. intros [= <-].
      apply sublist_app; apply filterTokens_startsWith_sublist.
    + by rewrite (getSuggestionsForParseTreeK_absent _ _ _ _ _ Hp Hc).
  - rewrite (getSuggestionsForParseTreeK_tokens_only _ _ _ _ _ Hp).
    simpl. intros [= <-].
    apply sublist_inserts_l, filterTokens_startsWith_sublist.
Qed.

(** X17. When nothing but white space has been typed, the default filter
    lets everything through: the DSL translator returns all vocabulary
    suggestions, and any list the Kotlin translator returns is all visible
    variable names (on the identifier path) followed by all vocabulary
    suggestions. *)
Theorem nothing_typed_shows_everything
    (parser : Parser) (parseTree : ParseTree)
    (symbolTableFn : unit -> SymbolTable) (position : TokenPosition) :
  allWhitespace (text position) ->
  outcome (getSuggestionsForParseTree initialGlobals parser parseTree
             symbolTableFn position)
  = Ok (tokenSuggestions_S parser (candidatesAt_S parser position))
  /\ (forall result,
        outcome (getSuggestionsForParseTreeK initialGlobals parser
                   parseTree symbolTableFn position) = Ok result ->
        result
        = (if triggersIdentifierPath (candidatesAt_K parser position)
           then List.map name
                  (visibleVariables (symbolTableFn tt) position)
           else [])
            ++ tokenSuggestions_K parser (candidatesAt_K parser position)).
Proof.
  intros Hw. split.
  - rewrite getSuggestionsForParseTree_eq. simpl.
    by rewrite filterTokens_startsWith_whitespace
      by by apply textToMatch_whitespace.
  - intros result.
    destruct (triggersIdentifierPath (candidatesAt_K parser position))
      eqn:Hp.
    + destruct (context position) as [n|] eqn:Hc.
      * rewrite (getSuggestionsForParseTreeK_identifiers _ _ _ _ _ n Hp Hc).
        simpl. intros [= <-].
        rewrite (filterTokens_startsWith_whitespace (text position))
          by done.
        by rewrite filterTokens_startsWith_whitespace
          by by apply textToMatch_whitespace.
      * by rewrite (getSuggestionsForParseTreeK_absent _ _ _ _ _ Hp Hc).
    + rewrite (getSuggestionsForParseTreeK_tokens_only _ _ _ _ _ Hp).
      simpl. intros [= <-].
      by rewrite filterTokens_startsWith_whitespace
        by by apply textToMatch_whitespace.
Qed.

(** X18. The variables offered depend on the nearest symbol attached to
    the context chain and on nothing above it: if that symbol owns a
    scope, they are collected from it outwards; if it does not (a
    variable attached to its own declaration, say), the flat lookup of
    the whole table is used, even when a scope is attached to a node
    further up. *)
Theorem visibleVariables_nearest_attachment
    (symbolTable : SymbolTable) (position : TokenPosition)
    (n : ParseTree) (below above : list ParseTree) (m : ParseTree)
    (s : Symbol) :
  context position = Some n ->
  ancestorsOrSelf n = below ++ m :: above ->
  symbolWithContextSync symbolTable m = Some s ->
  (forall b, b ∈ below -> symbolWithContextSync symbolTable b = None) ->
  visibleVariables symbolTable position
  = if instanceof s ScopedSymbol
    then getAllSymbolsOfType s VariableSymbol
    else getAllSymbolsSync symbolTable VariableSymbol false.
Proof.
  intros Hc Hchain Hm Hbelow. unfold visibleVariables.
  assert (Hscope : getScope (context position) symbolTable = Some s).
  { rewrite Hc. simpl. rewrite getScope_from_head.
    apply head_omap_Some. by exists below, m, above. }
  by rewrite Hscope.
Qed.
End ResultLaws.

Section WalkLaws.
Context `{JsRuntime} `{SymbolTableLibrary}.
Context `{StructurizrParser} `{KotlinParser}.

(** X19. The upward walk of [suggestVariables] always ends on a node of
    the context chain: on the nearest variable-read node when there is one
    at or above the context node, and on the root of the parse tree when
    there is none.  It never runs off the tree. *)
Theorem climbToVariableRead_ends_on_chain (n : ParseTree) :
  let found := climbToVariableRead n in
  (instanceof_VariableReadContext found = true
   /\ exists below above,
        ancestorsOrSelf n = below ++ found :: above
        /\ forall b, b ∈ below -> instanceof_VariableReadContext b = false)
  \/ (node_parent found = None
      /\ last (ancestorsOrSelf n) = Some found
      /\ forall b, b ∈ ancestorsOrSelf n ->
                   instanceof_VariableReadContext b = false).
Proof.
  induction n as [u c o IH] using ParseTree_chain_ind. cbv zeta.
  destruct (instanceof_VariableReadContext (Node u c o)) eqn:Hv.
  - left.
    assert (Hfound : climbToVariableRead (Node u c o) = Node u c o)
      by (destruct o; simpl; by rewrite Hv).
    rewrite Hfound. split; [done|].
    exists [], (match o with Some p => ancestorsOrSelf p | None => [] end).
    split; [by destruct o|]. intros b Hb. by apply elem_of_nil in Hb.
  - destruct o as [p|].
    + assert (Hfound : climbToVariableRead (Node u c (Some p))
                       = climbToVariableRead p)
        by (simpl; by rewrite Hv).
      rewrite Hfound. cbv zeta in IH.
      destruct IH as [[Hread (below & above & Hchain & Hbelow)]
                     |[Hroot [Hlast Hnone]]].
      * left. split; [done|].
        exists (Node u c (Some p) :: below), above. simpl.
        split; [by rewrite Hchain|].
        intros b [->|Hb]%elem_of_cons; auto.
      * right. split; [done|]. split.
        -- simpl. destruct (ancestorsOrSelf p) eqn:Hp; [done|].
           by rewrite last_cons, Hlast.
        -- simpl. intros b [->|Hb]%elem_of_cons; auto.
    + right. simpl. rewrite Hv. simpl. split; [done|]. split; [done|].
      by intros b ->%list_elem_of_singleton.
Qed.

(** X20. What the translators ignore, exactly: for the DSL the newline
    token type alone; for the Kotlin grammar every token type from 0 up
    to, not including, [FILE], and the sixteen literal, comment, quote and
    label token types that are listed. *)
Theorem ignoredTokens_exact (t : Z) :
  (t ∈ ignoredTokens_S <-> t = NL)
  /\ (t ∈ ignoredTokens_K <->
      0 <= t < FILE
      \/ t ∈ [BinLiteral; BooleanLiteral; CharacterLiteral; DoubleLiteral;
              HexLiteral; IntegerLiteral; LongLiteral; NullLiteral;
              RealLiteral; DelimitedComment; LineComment;
              QUOTE_OPEN; QUOTE_CLOSE; TRIPLE_QUOTE_OPEN;
              LabelDefinition; LabelReference]).
Proof.
  split.
  - unfold ignoredTokens_S, push. simpl. apply list_elem_of_singleton.
  - unfold ignoredTokens_K. rewrite !elem_of_app, elem_of_seqZ.
    rewrite !elem_of_cons, !elem_of_nil.
    split.
    + intros [Hr|[Hl|[Hq|Hlab]]]; [left; lia|right..]; tauto.
    + intros [Hr|Hrest]; [left; lia|]. tauto.
Qed.
End WalkLaws.

(* ===================================================================== *)
(** * The sample request, run further *)
(* ===================================================================== *)

Section FurtherSampleRuns.
Import Sample.
#[local] Existing Instance asciiRuntime.
#[local] Existing Instance library.
#[local] Existing Instance structurizr.
#[local] Existing Instance kotlin.

Lemma sample_A_enclosedBy_C : enclosedBy A C.
Proof.
  apply (enclosedBy_outer A B C); [reflexivity|].
  apply (enclosedBy_outer B C C); [reflexivity|].
  apply enclosedBy_self.
Defined.

Lemma getAllSymbolsOfType_suffix_of_inner_witness :
  enclosedBy A C
  /\ getAllSymbolsOfType C VariableSymbol
       `suffix_of` getAllSymbolsOfType A VariableSymbol
  /\ getAllSymbolsSync A VariableSymbol true
       `prefix_of` getAllSymbolsOfType A VariableSymbol.
Proof.
  split; [exact sample_A_enclosedBy_C|].
  exact (getAllSymbolsOfType_suffix_of_inner A C VariableSymbol
           sample_A_enclosedBy_C).
Defined.

Lemma Foo_not_blank : ~ allWhitespace (js "Foo").
Proof. intros Hw. inversion Hw as [|u l Hu _]. discriminate Hu. Defined.

Lemma fo_not_blank : ~ allWhitespace (js "fo").
Proof. intros Hw. inversion Hw as [|u l Hu _]. discriminate Hu. Defined.

Lemma filterTokens_startsWith_narrows_witness :
  toLowerCase (js "fo") `prefix_of` toLowerCase (js "Foo")
  /\ ~ allWhitespace (js "Foo")
  /\ filterTokens_startsWith (js "Foo")
       (filterTokens_startsWith (js "fo")
          [js "foo"; js "Foobar"; js "bar"; js "fog"])
     = filterTokens_startsWith (js "Foo")
         [js "foo"; js "Foobar"; js "bar"; js "fog"].
Proof.
  assert (Hpre : toLowerCase (js "fo") `prefix_of` toLowerCase (js "Foo"))
    by (by exists (js "o")).
  split; [exact Hpre|]. split; [exact Foo_not_blank|].
  exact (proj1 (filterTokens_startsWith_narrows (js "fo") (js "Foo")
                  [js "foo"; js "Foobar"; js "bar"; js "fog"]
                  Hpre Foo_not_blank)).
Defined.

Lemma filterTokens_startsWith_matches_untrimmed_witness :
  ~ allWhitespace (js " fo")
  /\ js " foo" ∈ filterTokens_startsWith (js " fo") [js "foo"; js " foo"]
  /\ (length (js " fo") <= length (js " foo"))%nat.
Proof.
  assert (Hw : ~ allWhitespace (js " fo")).
  { intros Hw. inversion Hw as [|u l _ Hl]. inversion Hl as [|v l' Hv _].
    discriminate Hv. }
  assert (Hin : js " foo"
                  ∈ filterTokens_startsWith (js " fo")
                      [js "foo"; js " foo"])
    by (apply elem_of_cons; by left).
  split; [exact Hw|]. split; [exact Hin|].
  exact (proj2 (filterTokens_startsWith_matches_untrimmed (js " fo")
                  [js "foo"; js " foo"] (js " foo") Hw Hin)
           eq_refl eq_refl).
Defined.

Lemma tokenSuggestions_K_provenance_witness :
  js "!in"
    ∈ tokenSuggestions_K (parserWith identifierCandidates)
        identifierCandidates
  /\ exists k follow,
       (k, follow) ∈ tokens identifierCandidates /\ k <> Identifier
       /\ ((k = NOT_IN /\ js "!in" = js "!in")
           \/ (k <> NOT_IN /\ k = NOT_IS /\ js "!in" = js "!is")
           \/ (k <> NOT_IN /\ k <> NOT_IS
               /\ exists name,
                   getSymbolicName (parserWith identifierCandidates) k
                   = Some name
                   /\ name <> [] /\ js "!in" = toLowerCase name)).
Proof.
  assert (Hin : js "!in"
                  ∈ tokenSuggestions_K (parserWith identifierCandidates)
                      identifierCandidates)
    by (apply elem_of_cons; right; apply elem_of_cons; by left).
  split; [exact Hin|].
  exact (tokenSuggestions_K_provenance (parserWith identifierCandidates)
           identifierCandidates (js "!in") Hin).
Defined.

Lemma getSuggestionsForParseTreeK_selects_witness :
  outcome (getSuggestionsForParseTreeK initialGlobals
             (parserWith identifierCandidates) fileNode (fun _ => C)
             onRead) = Ok [js "a"]
  /\ [js "a"]
       `sublist_of`
       List.map name (visibleVariables C onRead)
         ++ tokenSuggestions_K (parserWith identifierCandidates)
              (candidatesAt_K (parserWith identifierCandidates) onRead).
Proof.
  split; [reflexivity|].
  exact (getSuggestionsForParseTreeK_selects
           (parserWith identifierCandidates) fileNode (fun _ => C) onRead
           [js "a"] eq_refl).
Defined.

Lemma getSuggestionsK_raises_without_context_witness :
  (fun _ _ _ => Some noContext)
    (@kotlinFile collaborators (js "val y = ")).1.2
    (@kotlinFile collaborators (js "val y = ")).2
    {| line := 1; column := 8 |}
  = Some noContext
  /\ context noContext = None
  /\ triggersIdentifierPath
       (candidatesAt_K (@kotlinFile collaborators (js "val y = ")).1.1
          noContext) = true
  /\ @getSuggestionsK _ _ _ collaborators initialGlobals (js "val y = ")
       {| line := 1; column := 8 |} (fun _ _ _ => Some noContext)
     = ([CallParser; CallComputeTokenPosition; CallCollectCandidates 3;
         CallSymbolTableFn],
        Throw TypeError).
Proof.
  do 3 (split; [reflexivity|]).
  exact (@getSuggestionsK_raises_without_context _ _ _ collaborators
           initialGlobals (js "val y = ") {| line := 1; column := 8 |}
           (fun _ _ _ => Some noContext) noContext
           eq_refl eq_refl eq_refl).
Defined.

Lemma onRead_has_context :
  context onRead <> None
  \/ triggersIdentifierPath
       (candidatesAt_K (@kotlinFile collaborators (js "val y = a")).1.1
          onRead) = false.
Proof. left. discriminate. Defined.

Lemma getSuggestionsK_returns_otherwise_witness :
  (fun _ _ _ => Some onRead)
    (@kotlinFile collaborators (js "val y = a")).1.2
    (@kotlinFile collaborators (js "val y = a")).2
    {| line := 1; column := 9 |}
  = Some onRead
  /\ (context onRead <> None
      \/ triggersIdentifierPath
           (candidatesAt_K (@kotlinFile collaborators (js "val y = a")).1.1
              onRead) = false)
  /\ outcome (@getSuggestionsK _ _ _ collaborators initialGlobals
                (js "val y = a") {| line := 1; column := 9 |}
                (fun _ _ _ => Some onRead))
     = Ok [js "a"].
Proof.
  split; [reflexivity|]. split; [exact onRead_has_context|].
  exact (@getSuggestionsK_returns_otherwise _ _ _ collaborators
           (js "val y = a") {| line := 1; column := 9 |}
           (fun _ _ _ => Some onRead) onRead eq_refl onRead_has_context).
Defined.

Lemma space_is_blank : allWhitespace (text SampleBlank.position).
Proof. repeat constructor. Defined.

Lemma nothing_typed_shows_everything_witness :
  allWhitespace (text SampleBlank.position)
  /\ outcome (getSuggestionsForParseTree initialGlobals
                (parserWith keywordCandidates) fileNode (fun _ => C)
                SampleBlank.position)
     = Ok [js "val"; js "var"].
Proof.
  split; [exact space_is_blank|].
  exact (proj1 (nothing_typed_shows_everything
                  (parserWith keywordCandidates) fileNode (fun _ => C)
                  SampleBlank.position space_is_blank)).
Defined.
End FurtherSampleRuns.

Section AttachedSampleRuns.
Import Sample.
#[local] Existing Instance SampleAttached.library.

Lemma visibleVariables_nearest_attachment_witness :
  context onRead = Some leafNode
  /\ ancestorsOrSelf leafNode
     = [leafNode] ++ readNode :: [blockNode; bodyNode; fileNode]
  /\ symbolWithContextSync C readNode = Some a
  /\ (forall b, b ∈ [leafNode] -> symbolWithContextSync C b = None)
  /\ symbolWithContextSync C blockNode = Some A
  /\ visibleVariables C onRead = [g].
Proof.
  assert (Hbelow : forall b, b ∈ [leafNode] ->
                             symbolWithContextSync C b = None)
    by (by intros b ->%list_elem_of_singleton).
  do 3 (split; [reflexivity|]). split; [exact Hbelow|].
  split; [reflexivity|].
  exact (visibleVariables_nearest_attachment C onRead leafNode
           [leafNode] [blockNode; bodyNode; fileNode] readNode a
           eq_refl eq_refl eq_refl Hbelow).
Defined.
End AttachedSampleRuns.
